(** * genai-art-generator: the request-orchestration pipeline

    A shallow embedding of the TypeScript sources (controller, service,
    strategy, file repository and domain models) together with the
    properties stated about them.

    Conventions of the embedding.
    - A JavaScript string is the list of its UTF-16 code units; [.length],
      [.substring] and the non-unicode regular expression of the source all
      work on code units.
    - A thrown [Error] is carried by its [message], the only field the
      sources ever inspect.
    - An [async] function is a state transformer over the [World] (file
      system, clock, identifier source) whose result is a settled promise
      ([Ok] or [Throw]) or a promise that never settles ([Pending]). *)

From Stdlib Require Import List NArith ZArith String Ascii Bool Lia.
From Stdlib Require Import Sorting.Sorted Sorting.Permutation.
From Stdlib Require DecimalString.
Import ListNotations.

Set Implicit Arguments.

(* ================================================================== *)
(** * JavaScript strings *)
(* ================================================================== *)

Module JsString.

(** UTF-16 code units. *)
Definition js_string := list N.

(** An ASCII literal of the source, as code units. *)
Definition lit (s : string) : js_string :=
  map N_of_ascii (list_ascii_of_string s).

Definition eq_dec : forall a b : js_string, {a = b} + {a <> b} :=
  list_eq_dec N.eq_dec.

(** [a === b] on strings. *)
Definition eqb (a b : js_string) : bool :=
  if eq_dec a b then true else false.

(** ToBoolean on a string: only the empty string is falsy. *)
Definition truthy (s : js_string) : bool :=
  match s with [] => false | _ :: _ => true end.

(** ECMAScript WhiteSpace and LineTerminator code points, the set
    [String.prototype.trim] strips: TAB, LF, VT, FF, CR, SP, NBSP,
    U+1680, U+2000..U+200A, LS, PS, U+202F, U+205F, U+3000, BOM. *)
Definition isWhiteSpace (c : N) : bool :=
  ((9 <=? c) && (c <=? 13)
   || (c =? 32) || (c =? 160) || (c =? 5760)
   || (8192 <=? c) && (c <=? 8202)
   || (c =? 8232) || (c =? 8233) || (c =? 8239) || (c =? 8287)
   || (c =? 12288) || (c =? 65279))%N.

Fixpoint trimStart (s : js_string) : js_string :=
  match s with
  | [] => []
  | c :: s' => if isWhiteSpace c then trimStart s' else s
  end.

Definition trimEnd (s : js_string) : js_string :=
  rev (trimStart (rev s)).

(** [s.trim()]. *)
Definition trim (s : js_string) : js_string := trimEnd (trimStart s).

(** [s.substring(0, n)] for [n >= 0]. *)
Definition substring0 (n : nat) (s : js_string) : js_string := firstn n s.

Definition isDigit (c : N) : bool := ((48 <=? c) && (c <=? 57))%N.
Definition isUpper (c : N) : bool := ((65 <=? c) && (c <=? 90))%N.
Definition isLower (c : N) : bool := ((97 <=? c) && (c <=? 122))%N.

(** A code unit matched by the class [a-z0-9] under the [i] flag.  Without
    the [u] flag case folding never maps a unit at or above 128 onto an
    ASCII letter, so the class is exactly the ASCII letters and digits. *)
Definition isAlnum (c : N) : bool := isLower c || isUpper c || isDigit c.

Definition dash : N := 45%N.

(** [s.replace(/[^a-z0-9]/gi, '-')]: every unit outside the class is
    replaced, one for one. *)
Definition replaceNonAlnum (s : js_string) : js_string :=
  map (fun c => if isAlnum c then c else dash) s.

(** [toLowerCase] on one unit of the ASCII range. *)
Definition lowerUnit (c : N) : N := if isUpper c then (c + 32)%N else c.

(** [s.toLowerCase()], modelled on the ASCII range only: the sources call
    it on the output of [replaceNonAlnum] alone, which holds ASCII letters,
    digits and dashes only (see [replaceNonAlnum_ascii] below). *)
Definition toLowerCase (s : js_string) : js_string := map lowerUnit s.

Fixpoint startsWith (p s : js_string) : bool :=
  match p, s with
  | [], _ => true
  | a :: p', b :: s' => (a =? b)%N && startsWith p' s'
  | _ :: _, [] => false
  end.

(** [s.endsWith(p)]. *)
Definition endsWith (p s : js_string) : bool := startsWith (rev p) (rev s).

(** Decimal rendering of a number, as in a template literal. *)
Definition ofN (n : N) : js_string :=
  lit (DecimalString.NilZero.string_of_uint (N.to_uint n)).

End JsString.
Export JsString.

Declare Scope js_scope.
Delimit Scope js_scope with js.
Notation "a +++ b" := (@app N a b) (at level 60, right associativity) : js_scope.
Local Open Scope js_scope.

(* ================================================================== *)
(** * Errors and promise outcomes *)
(* ================================================================== *)

(** [new Error(message)]. *)
Inductive exn : Type := Error (message : js_string).

Definition message (e : exn) : js_string := let 'Error m := e in m.

(** How a call ends: a value, a thrown error (rejected promise), or a
    promise that never settles. *)
Inductive outcome (A : Type) : Type :=
| Ok (a : A)
| Throw (e : exn)
| Pending.
Arguments Ok {A} a.
Arguments Throw {A} e.
Arguments Pending {A}.

(** Sequencing of synchronous code: the first throw ends the block. *)
Definition obind {A B : Type} (o : outcome A) (k : A -> outcome B)
  : outcome B :=
  match o with
  | Ok a => k a
  | Throw e => Throw e
  | Pending => Pending
  end.

Notation "'let?' x ':=' c 'in' k" := (obind c (fun x => k))
  (at level 10, x name, c at level 100, k at level 200).

(* ================================================================== *)
(** * Domain model: ImageGenerationRequest *)
(* ================================================================== *)

Module ImageSize.
Definition SQUARE : js_string := lit "1024x1024".
Definition LANDSCAPE : js_string := lit "1792x1024".
Definition PORTRAIT : js_string := lit "1024x1792".
Definition members : list js_string := [SQUARE; LANDSCAPE; PORTRAIT].
End ImageSize.

Module ImageQuality.
Definition STANDARD : js_string := lit "standard".
Definition HD : js_string := lit "hd".
Definition members : list js_string := [STANDARD; HD].
End ImageQuality.

Record ImageGenerationRequest : Type := mkRequest {
  req_prompt : js_string;
  req_size : js_string;
  req_quality : js_string
}.

(** The private [validate()]: the guard of its [if]. *)
Definition validate_rejects (prompt : js_string) : bool :=
  negb (truthy prompt) || (List.length (trim prompt) =? 0).

(** [new ImageGenerationRequest(prompt, size, quality)]; an argument that is
    [undefined] ([None]) takes the parameter's default. *)
Definition newImageGenerationRequest
    (prompt : js_string) (size quality : option js_string)
  : outcome ImageGenerationRequest :=
  let size' := match size with Some s => s | None => ImageSize.SQUARE end in
  let quality' :=
    match quality with Some q => q | None => ImageQuality.STANDARD end in
  if validate_rejects prompt
  then Throw (Error (lit "Prompt cannot be empty"))
  else Ok (mkRequest prompt size' quality').

(* ================================================================== *)
(** * JSON values, dates and the runtime built-ins *)
(* ================================================================== *)

(** A value produced by [JSON.parse].  A number is kept as the bit pattern
    of its binary64 representation; nothing below computes with it. *)
#[warnings="-register-all"]
Inductive json : Type :=
| JNull
| JBool (b : bool)
| JNum (bits : N)
| JStr (s : js_string)
| JArr (items : list json)
| JObj (props : list (js_string * json)).

(** A JavaScript value of type [any] read out of parsed JSON: [None] is
    [undefined]. *)
Definition value : Type := option json.

Definition VStr (s : js_string) : value := Some (JStr s).

(** A [Date] object: a time value in milliseconds since the epoch, or the
    Invalid Date (time value NaN). *)
Inductive Date : Type :=
| ValidDate (ms : Z)
| InvalidDate.

(** [d.getTime()]; [None] is NaN. *)
Definition getTime (d : Date) : option Z :=
  match d with ValidDate t => Some t | InvalidDate => None end.

(** The range of time values a [Date] can hold. *)
Definition time_in_range (t : Z) : Prop :=
  (-8640000000000000 <= t <= 8640000000000000)%Z.

(** Built-ins of the JavaScript runtime and of Node that the sources call
    and that are not code of the repository. *)
Class Runtime : Type := {
  (** [JSON.stringify(v, null, 2)] *)
  JSON_stringify : json -> js_string;
  (** [JSON.parse(text)]; [None] when it throws a [SyntaxError] *)
  JSON_parse : js_string -> option json;
  (** the bytes [fs.writeFileSync(path, text)] stores *)
  utf8_encode : js_string -> list N;
  (** the text [fs.readFileSync(path, 'utf-8')] returns *)
  utf8_decode : list N -> js_string;
  (** [d.toISOString()] for a valid date with time value [t] *)
  toISOString_of : Z -> js_string;
  (** [new Date(v)] *)
  newDate : value -> Date
}.

(** The [TypeError] of reading a property of [null]. *)
Definition TypeError_null : exn :=
  Error (lit "Cannot read properties of null").

Fixpoint assoc {A : Type} (k : js_string) (l : list (js_string * A))
  : option A :=
  match l with
  | [] => None
  | (k', v) :: l' => if JsString.eqb k k' then Some v else assoc k l'
  end.

(** [data.key] on a parsed JSON value.  Reading a property of [null] throws;
    the keys read below ([id], [prompt], [createdAt], [size], [quality]) are
    own properties of objects only, so every other kind of value yields
    [undefined]. *)
Definition get_prop (data : json) (key : js_string) : outcome value :=
  match data with
  | JNull => Throw TypeError_null
  | JObj props => Ok (assoc key props)
  | _ => Ok None
  end.

(* ================================================================== *)
(** * Domain model: ImageMetadata *)
(* ================================================================== *)

(** The fields are declared [string] in the source, but [fromJSON] fills
    them from [Record<string, any>], so at run time they hold whatever the
    record file contained. *)
Record ImageMetadata : Type := mkImageMetadata {
  id : value;
  prompt : value;
  createdAt : Date;
  size : value;
  quality : value
}.

Definition RangeError_invalid_time : exn := Error (lit "Invalid time value").

(** An object literal: the properties in source order, [undefined] ones
    included. *)
Definition object_literal : Type := list (js_string * value).

(** What [JSON.stringify] serialises of an object literal: properties whose
    value is [undefined] are left out. *)
Fixpoint defined_props (o : object_literal) : list (js_string * json) :=
  match o with
  | [] => []
  | (k, Some v) :: o' => (k, v) :: defined_props o'
  | (_, None) :: o' => defined_props o'
  end.

Section Metadata.
Context {RT : Runtime}.

(** [d.toISOString()]: throws a [RangeError] on the Invalid Date. *)
Definition toISOString (d : Date) : outcome js_string :=
  match d with
  | ValidDate t => Ok (toISOString_of t)
  | InvalidDate => Throw RangeError_invalid_time
  end.

(** [ImageMetadata.toJSON()]. *)
Definition toJSON (m : ImageMetadata) : outcome object_literal :=
  let? iso := toISOString (createdAt m) in
  Ok [ (lit "id", id m);
       (lit "prompt", prompt m);
       (lit "createdAt", VStr iso);
       (lit "size", size m);
       (lit "quality", quality m) ].

(** [ImageMetadata.fromJSON(data)]. *)
Definition fromJSON (data : json) : outcome ImageMetadata :=
  let? i := get_prop data (lit "id") in
  let? p := get_prop data (lit "prompt") in
  let? c := get_prop data (lit "createdAt") in
  let? s := get_prop data (lit "size") in
  let? q := get_prop data (lit "quality") in
  Ok (mkImageMetadata i p (newDate c) s q).

End Metadata.

(* ================================================================== *)
(** * The world: file system, clock, identifiers, remote services *)
(* ================================================================== *)

(** A path as [path.join(dir, name)] builds it: a directory and an entry
    name.  [path.join] also normalises its result, resolving the segments
    [.] and [..] of a name that holds path separators; that is not
    modelled.  The model is therefore exact for names without a separator,
    which is what [uuidv4] and [readdirSync] give; an identifier taken from
    a request may hold separators, and statements that follow such an
    identifier into the file system assume [separator_free]. *)
Record path : Type := mkPath { dir : js_string; base : js_string }.

Definition path_join (d name : js_string) : path := mkPath d name.

(** Neither [/] nor [\] occurs in the name. *)
Definition separator_free (name : js_string) : bool :=
  forallb (fun c => negb ((c =? 47) || (c =? 92))%N) name.

(** A directory: its entries in the order [readdirSync] lists them. *)
Definition directory : Type := list (js_string * list N).

(** A write to a file, as seen on disk: the entry, and whether the write ran
    to completion.  Kept newest first in the [trace] of the world. *)
Inductive fs_event : Type :=
| FileWritten (p : path) (complete : bool).

Record World : Type := mkWorld {
  fs : list (js_string * directory);
  clock : Z;
  uuid_count : nat;
  trace : list fs_event
}.

(** How writing a file can go wrong: before anything is created, or after
    the first [n] bytes reached the disk. *)
Inductive disk_fault : Type :=
| FailOpen (e : exn)
| FailAfter (n : nat) (e : exn).

(** What an [http.get] leads to.  [elapsed] is the time in milliseconds
    until the callback (or the error event) fires. *)
Inductive http_event : Type :=
| Response (statusCode : N) (location : option js_string) (body : list N)
           (elapsed : N)
| RequestError (e : exn) (elapsed : N)
| NoReply.

Inductive protocol : Type := https | http.

(** The content of a chat completion: text, or a list of content parts. *)
Inductive chat_content : Type :=
| ContentText (s : js_string)
| ContentParts.

Inductive AIProvider : Type := OPENAI | GEMINI.

(** Configuration and everything outside the process.  The answers of the
    remote services are functions of the request (and, for the network and
    the disk, of the time of the request). *)
Class Env : Type := {
  (** [AppConfig.storagePath] *)
  storagePath : js_string;
  (** [AppConfig.provider] *)
  provider : AIProvider;
  (** the n-th identifier [uuidv4()] returns *)
  uuid_at : nat -> js_string;
  (** [protocol.get(url, callback)] *)
  http_get : protocol -> js_string -> Z -> http_event;
  (** the fault, if any, that a write to the path meets *)
  disk_fault_at : path -> Z -> option disk_fault;
  (** the error, if any, that creating the directory meets *)
  mkdir_fault_at : js_string -> Z -> option exn;
  (** [chatModel.invoke(formattedPrompt)], giving [response.content] *)
  chatModel_invoke : js_string -> outcome chat_content;
  (** [openai.images.generate({...})], giving [response.data?.[0]?.url] *)
  openai_images_generate :
    js_string -> js_string -> js_string -> outcome (option js_string)
}.

(** Code with effects: a transformer of the world. *)
Definition M (A : Type) : Type := World -> outcome A * World.

Definition ret {A : Type} (a : A) : M A := fun w => (Ok a, w).

Definition throw {A : Type} (e : exn) : M A := fun w => (Throw e, w).

Definition lift {A : Type} (o : outcome A) : M A := fun w => (o, w).

Definition bind {A B : Type} (c : M A) (k : A -> M B) : M B :=
  fun w =>
    match c w with
    | (Ok a, w') => k a w'
    | (Throw e, w') => (Throw e, w')
    | (Pending, w') => (Pending, w')
    end.

(** [try { c } catch (error) { h error }]. *)
Definition try_catch {A : Type} (c : M A) (h : exn -> M A) : M A :=
  fun w =>
    match c w with
    | (Throw e, w') => h e w'
    | r => r
    end.

Notation "x <- c ;; k" := (bind c (fun x => k))
  (at level 61, c at next level, right associativity).

(** ** File system primitives *)

Definition ENOENT : exn := Error (lit "ENOENT: no such file or directory").

(** Replace the value of an existing key in place, or add the key last. *)
Fixpoint set_entry {A : Type} (k : js_string) (v : A)
    (l : list (js_string * A)) : list (js_string * A) :=
  match l with
  | [] => [(k, v)]
  | (k', v') :: l' =>
      if JsString.eqb k k' then (k, v) :: l' else (k', v') :: set_entry k v l'
  end.

Definition lookup_file (p : path) (w : World) : option (list N) :=
  match assoc (dir p) (fs w) with
  | Some entries => assoc (base p) entries
  | None => None
  end.

Definition is_some {A : Type} (o : option A) : bool :=
  match o with Some _ => true | None => false end.

(** [fs.existsSync(p)] on a file path. *)
Definition existsSync (p : path) : M bool :=
  fun w => (Ok (is_some (lookup_file p w)), w).

(** [fs.existsSync(d)] on a directory. *)
Definition existsSync_dir (d : js_string) : M bool :=
  fun w => (Ok (is_some (assoc d (fs w))), w).

(** [fs.readdirSync(d)]. *)
Definition readdirSync (d : js_string) : M (list js_string) :=
  fun w =>
    match assoc d (fs w) with
    | Some entries => (Ok (map fst entries), w)
    | None => (Throw ENOENT, w)
    end.

(** Store [data] under [p], recording the write. *)
Definition put_file (p : path) (data : list N) (complete : bool)
    (entries : directory) (w : World) : World :=
  mkWorld (set_entry (dir p) (set_entry (base p) data entries) (fs w))
          (clock w) (uuid_count w)
          (FileWritten p complete :: trace w).

Section FileSystem.
Context {RT : Runtime} {EV : Env}.

(** [fs.mkdirSync(d, { recursive: true })]: it throws the error the disk
    answers with (EACCES, EROFS, ...); otherwise it creates the directory,
    and leaves one that exists as it is. *)
Definition mkdirSync (d : js_string) : M unit :=
  fun w =>
    match mkdir_fault_at d (clock w) with
    | Some e => (Throw e, w)
    | None =>
        match assoc d (fs w) with
        | Some _ => (Ok tt, w)
        | None =>
            (Ok tt, mkWorld (set_entry d [] (fs w)) (clock w) (uuid_count w)
                            (trace w))
        end
    end.

(** Writing a whole file: [fs.writeFileSync], and a write stream that is
    piped a complete body. *)
Definition write_file (p : path) (data : list N) : M unit :=
  fun w =>
    match assoc (dir p) (fs w) with
    | None => (Throw ENOENT, w)
    | Some entries =>
        match disk_fault_at p (clock w) with
        | None => (Ok tt, put_file p data true entries w)
        | Some (FailOpen e) => (Throw e, w)
        | Some (FailAfter n e) =>
            (Throw e, put_file p (firstn n data) false entries w)
        end
    end.

(** [fs.writeFileSync(p, text)]. *)
Definition writeFileSync (p : path) (text : js_string) : M unit :=
  write_file p (utf8_encode text).

(** [fs.readFileSync(p, 'utf-8')]. *)
Definition readFileSync (p : path) : M js_string :=
  fun w =>
    match lookup_file p w with
    | Some bytes => (Ok (utf8_decode bytes), w)
    | None => (Throw ENOENT, w)
    end.

(** [JSON.parse(text)] as a call that may throw. *)
Definition SyntaxError : exn := Error (lit "Unexpected token in JSON").

Definition parse_json (text : js_string) : outcome json :=
  match JSON_parse text with
  | Some j => Ok j
  | None => Throw SyntaxError
  end.

(** [uuidv4()]. *)
Definition uuidv4 : M js_string :=
  fun w =>
    (Ok (uuid_at (uuid_count w)),
     mkWorld (fs w) (clock w) (S (uuid_count w)) (trace w)).

(** [new Date()]. *)
Definition newDateNow : M Date := fun w => (Ok (ValidDate (clock w)), w).

(** Time passing while a request is in flight. *)
Definition advance (elapsed : N) (w : World) : World :=
  mkWorld (fs w) (clock w + Z.of_N elapsed)%Z (uuid_count w) (trace w).

End FileSystem.

(* ================================================================== *)
(** * Array.prototype.sort *)
(* ================================================================== *)

Section ArraySort.
Variable A : Type.

(** The comparator's result: a number, or NaN ([None]). *)
Variable comparefn : A -> A -> option Z.

(** [SortCompare(x, y) > 0], that is, [x] has to come after [y]; a NaN
    result counts as [+0]. *)
Definition comes_after (x y : A) : bool :=
  match comparefn x y with
  | Some v => (0 <? v)%Z
  | None => false
  end.

Fixpoint sort_insert (x : A) (l : list A) : list A :=
  match l with
  | [] => [x]
  | y :: l' =>
      if comes_after x y then y :: sort_insert x l' else x :: y :: l'
  end.

(** [l.sort(comparefn)].  The specification fixes the result for every
    consistent comparator (the stable sorted order); this is the stable
    insertion sort, which computes it.  For a comparator that is not
    consistent, as [byCreatedAtDesc] below is once a date is invalid, the
    specification leaves the order to the engine: nothing is proved from
    the order then, except on the one array of the scenario
    [UndatedScenario], where V8 compares each element with its left
    neighbour only, finds NaN both times and moves nothing. *)
Fixpoint Array_sort (l : list A) : list A :=
  match l with
  | [] => []
  | x :: l' => sort_insert x (Array_sort l')
  end.

End ArraySort.

(* ================================================================== *)
(** * FileImageRepository *)
(* ================================================================== *)

(** The interface [IImageRepository]. *)
Record IImageRepository : Type := mkRepository {
  repo_save :
    js_string -> js_string -> option js_string -> option js_string ->
    M js_string;
  repo_findById : js_string -> M (option ImageMetadata);
  repo_findAll : M (list ImageMetadata);
  repo_getImagePath : js_string -> path;
  repo_exists : js_string -> M bool
}.

(** The comparator of [findAll]:
    [(a, b) => b.createdAt.getTime() - a.createdAt.getTime()]. *)
Definition byCreatedAtDesc (a b : ImageMetadata) : option Z :=
  match getTime (createdAt b), getTime (createdAt a) with
  | Some tb, Some ta => Some (tb - ta)%Z
  | _, _ => None
  end.

Module FileImageRepository.
Section Repository.
Context {RT : Runtime} {EV : Env}.

Definition ensureStorageDirectory : M unit :=
  ex <- existsSync_dir storagePath ;;
  if negb ex then mkdirSync storagePath else ret tt.

(** The constructor. *)
Definition new : M unit := ensureStorageDirectory.

Definition getImagePath (imageId : js_string) : path :=
  path_join storagePath (imageId +++ lit ".png").

Definition getMetadataPath (imageId : js_string) : path :=
  path_join storagePath (imageId +++ lit ".json").

Definition protocol_of (url : js_string) : protocol :=
  if startsWith (lit "https") url then https else http.

(** [downloadImage(url, filePath)].  The source recurses on every redirect
    without a bound; [fuel] bounds the number of requests, and a chain that
    outlasts it is a promise that has not settled. *)
Fixpoint downloadImage (fuel : nat) (url : js_string) (filePath : path)
  : M unit :=
  fun w =>
    match fuel with
    | O => (Pending, w)
    | S fuel' =>
        match http_get (protocol_of url) url (clock w) with
        | NoReply => (Pending, w)
        | RequestError e elapsed => (Throw e, advance elapsed w)
        | Response statusCode location body elapsed =>
            let w1 := advance elapsed w in
            if (statusCode =? 200)%N then
              write_file filePath body w1
            else if ((statusCode =? 301) || (statusCode =? 302))%N then
              match location with
              | Some l =>
                  if truthy l
                  then downloadImage fuel' l filePath w1
                  else
                    (Throw (Error (lit "Redirect without location header")),
                     w1)
              | None =>
                  (Throw (Error (lit "Redirect without location header")),
                   w1)
              end
            else
              (Throw (Error (lit "Failed to download image: "
                             +++ ofN statusCode)),
               w1)
        end
    end.

Definition save (fuel : nat) (imageUrl prompt : js_string)
    (size quality : option js_string) : M js_string :=
  imageId <- uuidv4 ;;
  let imagePath := getImagePath imageId in
  let metadataPath := getMetadataPath imageId in
  _ <- downloadImage fuel imageUrl imagePath ;;
  now <- newDateNow ;;
  let metadata :=
    mkImageMetadata (VStr imageId) (VStr prompt) now
                    (option_map JStr size) (option_map JStr quality) in
  o <- lift (toJSON metadata) ;;
  _ <- writeFileSync metadataPath (JSON_stringify (JObj (defined_props o))) ;;
  ret imageId.

(** The body of the [try] shared by [findById] and [findAll]: read the file,
    parse it, build the record. *)
Definition read_record (metadataPath : path) : M ImageMetadata :=
  text <- readFileSync metadataPath ;;
  data <- lift (parse_json text) ;;
  lift (fromJSON data).

Definition findById (imageId : js_string) : M (option ImageMetadata) :=
  let metadataPath := getMetadataPath imageId in
  ex <- existsSync metadataPath ;;
  if negb ex then ret None
  else
    try_catch
      (m <- read_record metadataPath ;; ret (Some m))
      (fun _ => ret None).

(** The [for] loop of [findAll], pushing onto [images]. *)
Fixpoint findAll_loop (jsonFiles : list js_string)
    (images : list ImageMetadata) : M (list ImageMetadata) :=
  match jsonFiles with
  | [] => ret images
  | file :: rest =>
      images' <-
        try_catch
          (m <- read_record (path_join storagePath file) ;;
           ret (images ++ [m]))
          (fun _ => ret images) ;;
      findAll_loop rest images'
  end.

Definition findAll : M (list ImageMetadata) :=
  ex <- existsSync_dir storagePath ;;
  if negb ex then ret []
  else
    files <- readdirSync storagePath ;;
    let jsonFiles := filter (endsWith (lit ".json")) files in
    images <- findAll_loop jsonFiles [] ;;
    ret (Array_sort byCreatedAtDesc images).

Definition exists_ (imageId : js_string) : M bool :=
  existsSync (getImagePath imageId).

(** The repository object, as the service receives it. *)
Definition repository (fuel : nat) : IImageRepository :=
  mkRepository (save fuel) findById findAll getImagePath exists_.

End Repository.
End FileImageRepository.

(* ================================================================== *)
(** * Image generation clients and the LangChain strategy *)
(* ================================================================== *)

(** The interface [IImageGenerationClient]. *)
Record IImageGenerationClient : Type := mkClient {
  client_generateImage : js_string -> js_string -> js_string -> M js_string
}.

(** The interface [IImageGenerationStrategy]. *)
Record IImageGenerationStrategy : Type := mkStrategy {
  strategy_generate : js_string -> js_string -> js_string -> M js_string
}.

(** [throw new Error(`Failed to generate image: ${error.message}`)], the
    handler of three [catch] blocks. *)
Definition rethrow_generation_failure {A : Type} (error : exn) : M A :=
  throw (Error (lit "Failed to generate image: " +++ message error)).

Definition TypeError_not_a_function : exn :=
  Error (lit "enhancedPrompt.trim is not a function").

Section Strategy.
Context {EV : Env}.

Definition OpenAIImageGenerationClient_generateImage
    (prompt size quality : js_string) : M js_string :=
  try_catch
    (imageUrl <- lift (openai_images_generate prompt size quality) ;;
     match imageUrl with
     | Some u =>
         if truthy u then ret u
         else throw (Error (lit "No image URL returned from OpenAI"))
     | None => throw (Error (lit "No image URL returned from OpenAI"))
     end)
    rethrow_generation_failure.

Definition GeminiImageGenerationClient_generateImage
    (prompt size quality : js_string) : M js_string :=
  throw (Error (lit "Not implemented")).

(** [ImageGenerationClientFactory.createClient()] with no argument. *)
Definition createClient : IImageGenerationClient :=
  match provider with
  | OPENAI => mkClient OpenAIImageGenerationClient_generateImage
  | GEMINI => mkClient GeminiImageGenerationClient_generateImage
  end.

Definition newline : js_string := [10%N].
Definition indent : js_string := lit "      ".

(** [promptTemplate.format({ prompt })]: the template of the constructor
    with [{prompt}] filled in. *)
Definition promptTemplate_format (prompt : js_string) : js_string :=
  lit "You are an expert at creating detailed, artistic image prompts for AI image generation."
  +++ newline +++ indent
  +++ lit "Enhance the following prompt to be more descriptive, vivid, and artistic while maintaining the original intent."
  +++ newline +++ indent
  +++ lit "Add details about style, mood, lighting, composition, and artistic elements."
  +++ newline +++ indent +++ newline +++ indent
  +++ lit "Original prompt: " +++ prompt
  +++ newline +++ indent +++ newline +++ indent
  +++ lit "Enhanced prompt:".

(** The test and the two returns inside the [try] of
    [enhancePromptWithLangChain], on the [response.content] received. *)
Definition accept_enhancement (originalPrompt : js_string)
    (content : chat_content) : outcome js_string :=
  match content with
  | ContentText enhancedPrompt =>
      if truthy enhancedPrompt
         && (List.length originalPrompt <? List.length (trim enhancedPrompt))
      then Ok (trim enhancedPrompt)
      else Ok originalPrompt
  | ContentParts => Throw TypeError_not_a_function
  end.

Definition enhancePromptWithLangChain (originalPrompt : js_string)
  : M js_string :=
  try_catch
    (let formattedPrompt := promptTemplate_format originalPrompt in
     content <- lift (chatModel_invoke formattedPrompt) ;;
     lift (accept_enhancement originalPrompt content))
    (fun _ => ret originalPrompt).

(** [LangChainImageGenerationStrategy.generate]. *)
Definition LangChain_generate (imageClient : IImageGenerationClient)
    (prompt size quality : js_string) : M js_string :=
  try_catch
    (enhancedPrompt <- enhancePromptWithLangChain prompt ;;
     imageUrl <- client_generateImage imageClient enhancedPrompt size quality ;;
     ret imageUrl)
    rethrow_generation_failure.

(** [ImageGenerationServiceFactory.createStrategy('langchain')]. *)
Definition createStrategy : IImageGenerationStrategy :=
  mkStrategy (LangChain_generate createClient).

End Strategy.

(* ================================================================== *)
(** * ImageGenerationService *)
(* ================================================================== *)

Record generation_result : Type := mkResult {
  imageId : js_string;
  imageUrl : js_string;
  result_prompt : js_string
}.

Definition TypeError_substring : exn :=
  Error (lit "metadata.prompt.substring is not a function").

Module ImageGenerationService.
Section Service.
Context {RT : Runtime}.
Variable generationStrategy : IImageGenerationStrategy.
Variable imageRepository : IImageRepository.

Definition generateImage (request : ImageGenerationRequest)
  : M generation_result :=
  try_catch
    (imageUrl <- strategy_generate generationStrategy
                   (req_prompt request) (req_size request)
                   (req_quality request) ;;
     _ <- (if negb (truthy imageUrl)
           then throw (Error (lit "Image generation returned no URL"))
           else ret tt) ;;
     imageId <- repo_save imageRepository imageUrl (req_prompt request)
                  (Some (req_size request)) (Some (req_quality request)) ;;
     ret (mkResult imageId (lit "/api/images/" +++ imageId)
                   (req_prompt request)))
    rethrow_generation_failure.

Definition getImageById (imageId : js_string)
  : M (path * object_literal) :=
  metadata <- repo_findById imageRepository imageId ;;
  match metadata with
  | None => throw (Error (lit "Image not found"))
  | Some metadata =>
      let path := repo_getImagePath imageRepository imageId in
      ex <- repo_exists imageRepository imageId ;;
      if negb ex then throw (Error (lit "Image file not found"))
      else
        json <- lift (toJSON metadata) ;;
        ret (path, json)
  end.

Definition getAllImages : M (list object_literal) :=
  images <- repo_findAll imageRepository ;;
  (fix map_toJSON (l : list ImageMetadata) : M (list object_literal) :=
     match l with
     | [] => ret []
     | img :: l' =>
         j <- lift (toJSON img) ;;
         js <- map_toJSON l' ;;
         ret (j :: js)
     end) images.

(** The chain [.substring(0, 50).replace(/[^a-z0-9]/gi, '-').toLowerCase()]
    on a string. *)
Definition sanitizePrompt (prompt : js_string) : js_string :=
  toLowerCase (replaceNonAlnum (substring0 50 prompt)).

Definition getDownloadFilename (imageId : js_string) : M js_string :=
  metadata <- repo_findById imageRepository imageId ;;
  match metadata with
  | None => ret (lit "artwork-" +++ imageId +++ lit ".png")
  | Some metadata =>
      match prompt metadata with
      | Some (JStr p) =>
          let sanitizedPrompt := sanitizePrompt p in
          ret (lit "artwork-" +++ sanitizedPrompt +++ lit "-" +++ imageId
               +++ lit ".png")
      | _ => throw TypeError_substring
      end
  end.

End Service.
End ImageGenerationService.

(* ================================================================== *)
(** * ImageController *)
(* ================================================================== *)

(** What a handler does with [res]. *)
Inductive reply : Type :=
| JsonReply (status : N) (body : list (js_string * json))
| SendFile (p : path)
| DownloadFile (p : path) (filename : js_string).

(** [req.body] of POST /generate: [prompt] is whatever the client sent,
    [size] and [quality] are strings when present. *)
Record generate_body : Type := mkBody {
  body_prompt : value;
  body_size : option js_string;
  body_quality : option js_string
}.

Module ImageController.
Section Controller.
Context {RT : Runtime}.
Variable generationStrategy : IImageGenerationStrategy.
Variable imageRepository : IImageRepository.

Local Abbreviation generateImage :=
  (ImageGenerationService.generateImage generationStrategy imageRepository).
Local Abbreviation getImageById :=
  (ImageGenerationService.getImageById imageRepository).
Local Abbreviation getDownloadFilename :=
  (ImageGenerationService.getDownloadFilename imageRepository).
Local Abbreviation getAllImages :=
  (ImageGenerationService.getAllImages imageRepository).

(** The operand of the guard [!prompt || typeof prompt !== 'string']: the
    prompt when the guard lets it through. *)
Definition accepted_prompt (prompt : value) : option js_string :=
  match prompt with
  | Some (JStr s) => if truthy s then Some s else None
  | _ => None
  end.

Definition generate (body : generate_body) : M reply :=
  try_catch
    (let prompt := body_prompt body in
     let size :=
       match body_size body with Some s => s | None => lit "1024x1024" end in
     let quality :=
       match body_quality body with Some q => q | None => lit "standard" end in
     match accepted_prompt prompt with
     | None =>
         ret (JsonReply 400 [(lit "error", JStr (lit "Prompt is required"))])
     | Some prompt =>
         request <-
           lift (newImageGenerationRequest prompt (Some size) (Some quality)) ;;
         result <- generateImage request ;;
         ret (JsonReply 200
                [ (lit "success", JBool true);
                  (lit "imageId", JStr (imageId result));
                  (lit "imageUrl", JStr (imageUrl result));
                  (lit "prompt", JStr (result_prompt result)) ])
     end)
    (fun error =>
       ret (JsonReply 500
              [ (lit "error", JStr (lit "Failed to generate image"));
                (lit "message", JStr (message error)) ])).

(** The [catch] block shared in shape by [getById] and [download]. *)
Definition not_found_or (failure : js_string) (error : exn) : M reply :=
  if JsString.eqb (message error) (lit "Image not found")
     || JsString.eqb (message error) (lit "Image file not found")
  then ret (JsonReply 404 [(lit "error", JStr (message error))])
  else ret (JsonReply 500 [(lit "error", JStr failure)]).

Definition getById (imageId : js_string) : M reply :=
  try_catch
    (r <- getImageById imageId ;;
     ret (SendFile (fst r)))
    (not_found_or (lit "Failed to serve image")).

Definition objects_json (l : list object_literal) : json :=
  JArr (map (fun o => JObj (defined_props o)) l).

Definition listAll : M reply :=
  try_catch
    (images <- getAllImages ;;
     ret (JsonReply 200
            [ (lit "success", JBool true);
              (lit "images", objects_json images) ]))
    (fun _ =>
       ret (JsonReply 500 [(lit "error", JStr (lit "Failed to list images"))])).

Definition download (imageId : js_string) : M reply :=
  try_catch
    (r <- getImageById imageId ;;
     filename <- getDownloadFilename imageId ;;
     ret (DownloadFile (fst r) filename))
    (not_found_or (lit "Failed to download image")).

End Controller.
End ImageController.

(* ================================================================== *)
(** * What the sources rely on from the runtime *)
(* ================================================================== *)

(** The object [save] hands to [JSON.stringify]: the five properties of
    [toJSON], the optional ones present or not. *)
Definition record_object (i p c : js_string) (s q : option js_string)
  : json :=
  JObj (defined_props
          [ (lit "id", VStr i);
            (lit "prompt", VStr p);
            (lit "createdAt", VStr c);
            (lit "size", option_map JStr s);
            (lit "quality", option_map JStr q) ]).

(** The two facts about the built-ins that reading back a record needs:
    such an object written as a UTF-8 JSON file parses back to itself, and a
    date in range is recovered from its ISO string. *)
Class RuntimeLaws (RT : Runtime) : Prop := {
  record_roundtrip :
    forall i p c s q,
      JSON_parse (utf8_decode (utf8_encode
                    (JSON_stringify (record_object i p c s q))))
      = Some (record_object i p c s q);
  date_roundtrip :
    forall t, time_in_range t -> newDate (VStr (toISOString_of t)) = ValidDate t
}.

(* ================================================================== *)
(** * Vocabulary of the statements *)
(* ================================================================== *)

(** A string made of white space only (the empty string included). *)
Definition blank (s : js_string) : bool := forallb isWhiteSpace s.

(** A record carries a valid date. *)
Definition has_valid_date (m : ImageMetadata) : Prop :=
  createdAt m <> InvalidDate.

(** The time value of a record with a valid date. *)
Definition time_value (m : ImageMetadata) : Z :=
  match createdAt m with ValidDate t => t | InvalidDate => 0%Z end.

(** [a] is at least as recent as [b]. *)
Definition newer_or_same (a b : ImageMetadata) : Prop :=
  (time_value b <= time_value a)%Z.

Definition strictly_newer (a b : ImageMetadata) : Prop :=
  (time_value b < time_value a)%Z.

Section StoreContents.
Context {RT : Runtime} {EV : Env}.

(** The entries of the storage directory named [*.json], in directory
    order. *)
Definition json_files (w : World) : list js_string :=
  match assoc storagePath (fs w) with
  | Some entries => filter (endsWith (lit ".json")) (map fst entries)
  | None => []
  end.

(** The record a file of the storage directory parses to, if it does. *)
Definition record_of_file (w : World) (file : js_string)
  : option ImageMetadata :=
  match fst (FileImageRepository.read_record (path_join storagePath file) w)
  with
  | Ok m => Some m
  | _ => None
  end.

Definition records_of (w : World) (files : list js_string)
  : list ImageMetadata :=
  flat_map (fun file =>
              match record_of_file w file with
              | Some m => [m]
              | None => []
              end) files.

(** The records of all the parsable record files, in directory order. *)
Definition parsable_records (w : World) : list ImageMetadata :=
  records_of w (json_files w).

End StoreContents.

(* ================================================================== *)
(** * A small runtime and environment to run the model on *)
(* ================================================================== *)

Module Demo.

(** A length-prefixed text format standing in for JSON text: each string is
    written as its length followed by its units. *)
Definition put_string (s : js_string) : js_string :=
  N.of_nat (List.length s) :: s.

Fixpoint put_props (props : list (js_string * json)) : js_string :=
  match props with
  | [] => []
  | (k, JStr v) :: r => put_string k ++ put_string v ++ put_props r
  | (k, _) :: r => put_string k ++ put_props r
  end.

Definition stringify (j : json) : js_string :=
  match j with
  | JObj props => put_props props
  | _ => []
  end.

Definition take_string (l : js_string) : option (js_string * js_string) :=
  match l with
  | [] => None
  | n :: r =>
      if N.to_nat n <=? List.length r
      then Some (firstn (N.to_nat n) r, skipn (N.to_nat n) r)
      else None
  end.

Fixpoint take_props (fuel : nat) (l : js_string)
  : option (list (js_string * json)) :=
  match l with
  | [] => Some []
  | _ :: _ =>
      match fuel with
      | O => None
      | S fuel' =>
          match take_string l with
          | Some (k, r) =>
              match take_string r with
              | Some (v, r') =>
                  match take_props fuel' r' with
                  | Some ps => Some ((k, JStr v) :: ps)
                  | None => None
                  end
              | None => None
              end
          | None => None
          end
      end
  end.

Definition parse (t : js_string) : option json :=
  option_map JObj (take_props (List.length t) t).

Definition epoch_offset : Z := 8640000000000000%Z.

(** A one-unit rendering of a time value standing in for the ISO string. *)
Definition isoString (t : Z) : js_string := [Z.to_N (t + epoch_offset)].

Definition dateOf (v : value) : Date :=
  match v with
  | Some (JStr [n]) =>
      if (n <=? Z.to_N (2 * epoch_offset))%N
      then ValidDate (Z.of_N n - epoch_offset)
      else InvalidDate
  | _ => InvalidDate
  end.

#[export] Instance runtime : Runtime := {
  JSON_stringify := stringify;
  JSON_parse := parse;
  utf8_encode := fun s => s;
  utf8_decode := fun b => b;
  toISOString_of := isoString;
  newDate := dateOf
}.

Definition cat_url : js_string := lit "https://images.example/cat.png".
Definition cat_bytes : list N := [137; 80; 78; 71]%N.

(** The environment of the end-to-end scenario: the enhancer answers with a
    longer prompt, the provider with a fixed URL, the download succeeds and
    the identifier is [abc123]. *)
#[export] Instance env : Env := {
  storagePath := lit "./generated-images";
  provider := OPENAI;
  uuid_at := fun _ => lit "abc123";
  http_get := fun _ url _ =>
    if JsString.eqb url cat_url
    then Response 200 None cat_bytes 40
    else Response 404 None [] 1;
  disk_fault_at := fun _ _ => None;
  mkdir_fault_at := fun _ _ => None;
  chatModel_invoke := fun _ =>
    Ok (ContentText (lit "a cat, painted in watercolor, soft lighting"));
  openai_images_generate := fun _ _ _ => Ok (Some cat_url)
}.

(** The world after the repository has been constructed at time 1000. *)
Definition world0 : World :=
  mkWorld [(lit "./generated-images", [])] 1000%Z 0 [].

(** The wiring of [imageRoutes.ts]; five requests are plenty here. *)
Definition repository : IImageRepository :=
  FileImageRepository.repository 5.

Definition strategy : IImageGenerationStrategy := createStrategy.

End Demo.

(** A property list all of whose values are strings. *)
Definition string_valued (props : list (js_string * json)) : Prop :=
  Forall (fun kv => exists v, snd kv = JStr v) props.

(* ================================================================== *)
(** * Scenarios *)
(* ================================================================== *)

Module GenerateScenario.

(** POST /generate with [{prompt: "a cat"}] in the demo environment, where
    the enhancer answers "a cat, painted in watercolor, soft lighting". *)
Definition body : generate_body := mkBody (VStr (lit "a cat")) None None.

Definition run : outcome reply * World :=
  ImageController.generate Demo.strategy Demo.repository body Demo.world0.

End GenerateScenario.

Module EnhanceScenario.

(** A completion that is longer than the original prompt only by the white
    space around it. *)
Definition original : js_string := lit "a catty".
Definition padded : js_string := lit "  a cat   ".

(** An environment whose completion is the padded text. *)
#[export] Instance padding : Env := {
  storagePath := lit "./generated-images";
  provider := OPENAI;
  uuid_at := fun _ => lit "abc123";
  http_get := fun _ _ _ => NoReply;
  disk_fault_at := fun _ _ => None;
  mkdir_fault_at := fun _ _ => None;
  chatModel_invoke := fun _ => Ok (ContentText padded);
  openai_images_generate := fun _ _ _ => Ok (Some Demo.cat_url)
}.

(** An environment whose completion call fails. *)
#[export] Instance offline : Env := {
  storagePath := lit "./generated-images";
  provider := OPENAI;
  uuid_at := fun _ => lit "abc123";
  http_get := fun _ _ _ => NoReply;
  disk_fault_at := fun _ _ => None;
  mkdir_fault_at := fun _ _ => None;
  chatModel_invoke := fun _ => Throw (Error (lit "offline"));
  openai_images_generate := fun _ _ _ => Ok (Some Demo.cat_url)
}.

End EnhanceScenario.

Module WriteOrderScenario.

(** One successful [save] in the demo environment. *)
Definition run : outcome js_string * World :=
  FileImageRepository.save (RT := Demo.runtime) (EV := Demo.env)
    5 Demo.cat_url (lit "a cat") None None Demo.world0.

End WriteOrderScenario.

Module SaveScenario.

(** The store after one successful [save] in the demo environment. *)
Definition run : outcome js_string * World :=
  FileImageRepository.save (RT := Demo.runtime) (EV := Demo.env)
    5 Demo.cat_url (lit "a cat")
    (Some ImageSize.LANDSCAPE) (Some ImageQuality.HD) Demo.world0.

Definition saved : World := snd run.

End SaveScenario.

Module DownloadScenario.

(** The store after saving an image under the prompt of the scenario. *)
Definition stored : World :=
  snd (repo_save Demo.repository Demo.cat_url
         (lit "A Beautiful!! Sunset@Sea") None None Demo.world0).

Definition filename : outcome js_string :=
  fst (ImageGenerationService.getDownloadFilename Demo.repository
         (lit "abc123") stored).

End DownloadScenario.

Module RedirectScenario.

Definition moved : js_string := lit "http://old.example/cat.png".
Definition temporary : js_string := lit "http://tmp.example/cat.png".

(** A remote that answers 302 for [moved] and 307 for [temporary], both
    with a Location header naming the image, and 200 for the image. *)
#[export] Instance env : Env := {
  storagePath := lit "./generated-images";
  provider := OPENAI;
  uuid_at := fun _ => lit "abc123";
  http_get := fun _ url _ =>
    if JsString.eqb url moved
    then Response 302 (Some Demo.cat_url) [] 10
    else if JsString.eqb url temporary
    then Response 307 (Some Demo.cat_url) [] 10
    else if JsString.eqb url Demo.cat_url
    then Response 200 None Demo.cat_bytes 40
    else Response 404 None [] 1;
  disk_fault_at := fun _ _ => None;
  mkdir_fault_at := fun _ _ => None;
  chatModel_invoke := fun _ => Throw (Error (lit "offline"));
  openai_images_generate := fun _ _ _ => Ok (Some moved)
}.

Definition target : path := FileImageRepository.getImagePath (lit "abc123").

Definition download (url : js_string) : outcome unit * World :=
  FileImageRepository.downloadImage 5 url target
    Demo.world0.

End RedirectScenario.

Module ListingScenario.

Definition record_bytes (name text : js_string) (t : Z) : list N :=
  Demo.stringify (record_object name text (Demo.isoString t) None None).

Definition r1 : ImageMetadata :=
  mkImageMetadata (VStr (lit "a")) (VStr (lit "first")) (ValidDate 1000)
                  None None.
Definition r2 : ImageMetadata :=
  mkImageMetadata (VStr (lit "b")) (VStr (lit "second")) (ValidDate 2000)
                  None None.
Definition r3 : ImageMetadata :=
  mkImageMetadata (VStr (lit "c")) (VStr (lit "third")) (ValidDate 3000)
                  None None.

(** A storage directory listing the second record first, then a text
    file, a record file that does not parse, the first record and the
    third. *)
Definition world : World :=
  mkWorld
    [(lit "./generated-images",
      [ (lit "b.json", record_bytes (lit "b") (lit "second") 2000);
        (lit "notes.txt", [104; 105]%N);
        (lit "broken.json", [7; 7; 7]%N);
        (lit "a.json", record_bytes (lit "a") (lit "first") 1000);
        (lit "c.json", record_bytes (lit "c") (lit "third") 3000) ])]
    5000%Z 0 [].

Definition listed : outcome (list ImageMetadata) :=
  fst (FileImageRepository.findAll (RT := Demo.runtime) (EV := Demo.env)
         world).

End ListingScenario.

Module LostImageScenario.

(** A storage directory that holds the record [a] and no image for it. *)
Definition world : World :=
  mkWorld
    [(lit "./generated-images",
      [ (lit "a.json",
         ListingScenario.record_bytes (lit "a") (lit "first") 1000) ])]
    5000%Z 0 [].

End LostImageScenario.

Module UndatedScenario.

Definition a : ImageMetadata :=
  mkImageMetadata (VStr (lit "a")) (VStr (lit "first")) (ValidDate 1000)
                  None None.
(** The record of a file that has no [createdAt] property. *)
Definition b : ImageMetadata :=
  mkImageMetadata (VStr (lit "b")) (VStr (lit "second")) InvalidDate
                  None None.
Definition c : ImageMetadata :=
  mkImageMetadata (VStr (lit "c")) (VStr (lit "third")) (ValidDate 3000)
                  None None.

(** A storage directory listing an older record, a record file without a
    date, and a newer record. *)
Definition world : World :=
  mkWorld
    [(lit "./generated-images",
      [ (lit "a.json",
         ListingScenario.record_bytes (lit "a") (lit "first") 1000);
        (lit "b.json",
         Demo.stringify (JObj [ (lit "id", JStr (lit "b"));
                                (lit "prompt", JStr (lit "second")) ]));
        (lit "c.json",
         ListingScenario.record_bytes (lit "c") (lit "third") 3000) ])]
    5000%Z 0 [].

End UndatedScenario.

(* ================================================================== *)
(** * Configuration and the factories *)
(* ================================================================== *)

(** [s.includes(p)]: [p] occurs in [s] at some position. *)
Fixpoint includes (p s : js_string) : bool :=
  startsWith p s
  || match s with
     | [] => false
     | _ :: s' => includes p s'
     end.

(** The double quote, as it occurs inside two messages. *)
Definition dquote : js_string := [34%N].

(** [process.env] after [dotenv.config()]: the variables that are set. *)
Definition process_env : Type := list (js_string * js_string).

Definition getenv (name : string) (env : process_env) : option js_string :=
  assoc (lit name) env.

(** [a || b] on two values that are strings or [undefined]. *)
Definition orU (a b : option js_string) : option js_string :=
  match a with
  | Some s => if truthy s then a else b
  | None => b
  end.

(** [a || 'literal']. *)
Definition or_else (a : option js_string) (b : js_string) : js_string :=
  match a with
  | Some s => if truthy s then s else b
  | None => b
  end.

(** The values of the enum [AIProvider]. *)
Definition provider_name (p : AIProvider) : js_string :=
  match p with
  | OPENAI => lit "openai"
  | GEMINI => lit "gemini"
  end.

(** [parseInt(text, 10)] and [parseFloat(text)], with the numbers they
    yield: built-ins that the sources only pass on. *)
Class NumberParsing : Type := {
  number : Type;
  parseInt10 : js_string -> number;
  parseFloat : js_string -> number
}.

Module AppConfig.
Section Config.
Context {NP : NumberParsing}.

Record t : Type := mk {
  provider : AIProvider;
  openaiApiKey : js_string;
  geminiApiKey : js_string;
  port : number;
  nodeEnv : js_string;
  storagePath : js_string
}.

(** The private [validate()], returning the instance it accepts. *)
Definition validate (this : t) : outcome t :=
  match provider this with
  | OPENAI =>
      if negb (truthy (openaiApiKey this))
      then Throw (Error (lit "OPENAI_API_KEY is required when PROVIDER is set to "
                         +++ dquote +++ lit "openai" +++ dquote))
      else Ok this
  | GEMINI =>
      if negb (truthy (geminiApiKey this))
      then Throw (Error (lit "GEMINI_API_KEY is required when PROVIDER is set to "
                         +++ dquote +++ lit "gemini" +++ dquote))
      else Ok this
  end.

(** The private constructor.  The lower-cased provider text is only
    compared with ['gemini'], and no unit outside ASCII lower-cases to one
    of its letters, so the ASCII [toLowerCase] decides the comparison as the
    built-in does. *)
Definition new (env : process_env) : outcome t :=
  let provider :=
    toLowerCase
      (or_else (orU (orU (getenv "PROVIDER" env) (getenv "LLM_PROVIDER" env))
                    (getenv "IMAGE_GENERATION_PROVIDER" env))
               (lit "openai")) in
  validate
    (mk (if JsString.eqb provider (lit "gemini") then GEMINI else OPENAI)
        (or_else (getenv "OPENAI_API_KEY" env) [])
        (or_else (getenv "GEMINI_API_KEY" env) [])
        (parseInt10 (or_else (getenv "PORT" env) (lit "3000")))
        (or_else (getenv "NODE_ENV" env) (lit "development"))
        (or_else (getenv "STORAGE_PATH" env) (lit "./generated-images"))).

(** [AppConfig.getInstance()], on the static field [instance]: the result
    and the field afterwards. *)
Definition getInstance (env : process_env) (instance : option t)
  : outcome t * option t :=
  match instance with
  | Some config => (Ok config, instance)
  | None =>
      match new env with
      | Ok config => (Ok config, Some config)
      | Throw e => (Throw e, None)
      | Pending => (Pending, None)
      end
  end.

Definition isDevelopment (this : t) : bool :=
  JsString.eqb (nodeEnv this) (lit "development").

Definition isProduction (this : t) : bool :=
  JsString.eqb (nodeEnv this) (lit "production").

Definition getProvider (this : t) : AIProvider := provider this.

Definition getProviderName (this : t) : js_string :=
  provider_name (provider this).

End Config.
End AppConfig.

(** An image generation client object: its class and its [apiKey]. *)
Inductive image_client : Type :=
| OpenAIImageGenerationClient (apiKey : js_string)
| GeminiImageGenerationClient (apiKey : js_string).

Definition client_apiKey (c : image_client) : js_string :=
  match c with
  | OpenAIImageGenerationClient k => k
  | GeminiImageGenerationClient k => k
  end.

(** The [generateImage] method of a client object. *)
Definition image_client_methods {EV : Env} (c : image_client)
  : IImageGenerationClient :=
  match c with
  | OpenAIImageGenerationClient _ =>
      mkClient OpenAIImageGenerationClient_generateImage
  | GeminiImageGenerationClient _ =>
      mkClient GeminiImageGenerationClient_generateImage
  end.

Module ImageGenerationClientFactory.
Section Factory.
Context {NP : NumberParsing}.
Variable config : AppConfig.t.

(** [new OpenAIImageGenerationClient(apiKey)]. *)
Definition newOpenAIImageGenerationClient (apiKey : option js_string)
  : outcome image_client :=
  let key := or_else apiKey (AppConfig.openaiApiKey config) in
  if negb (truthy key)
  then Throw (Error (lit "OpenAI API key is required for image generation"))
  else Ok (OpenAIImageGenerationClient key).

(** [new GeminiImageGenerationClient(apiKey)]. *)
Definition newGeminiImageGenerationClient (apiKey : option js_string)
  : outcome image_client :=
  let key := or_else apiKey (AppConfig.geminiApiKey config) in
  if negb (truthy key)
  then Throw (Error (lit "Gemini API key is required for image generation"))
  else Ok (GeminiImageGenerationClient key).

(** The subject of the [switch]: [provider.toLowerCase()] for a non-empty
    argument, the configured provider otherwise. *)
Definition imageProvider (provider : option js_string) : js_string :=
  match provider with
  | Some p =>
      if truthy p then toLowerCase p
      else provider_name (AppConfig.getProvider config)
  | None => provider_name (AppConfig.getProvider config)
  end.

(** [createClient(provider)].  The ASCII [toLowerCase] is exact on the
    names that consist of ASCII units. *)
Definition createClient (provider : option js_string)
  : outcome image_client :=
  let imageProvider := imageProvider provider in
  if JsString.eqb imageProvider (provider_name OPENAI)
  then newOpenAIImageGenerationClient None
  else if JsString.eqb imageProvider (provider_name GEMINI)
  then newGeminiImageGenerationClient None
  else Throw (Error (lit "Unsupported provider: " +++ imageProvider)).

Definition getAvailableProviders : list js_string :=
  [provider_name OPENAI; provider_name GEMINI].

End Factory.
End ImageGenerationClientFactory.

(** The options a LangChain chat model is constructed with. *)
Record chat_model {NP : NumberParsing} : Type := mkChatModel {
  chat_provider : AIProvider;
  chat_modelName : js_string;
  chat_temperature : number;
  chat_apiKey : js_string
}.
Arguments mkChatModel {NP} _ _ _ _.

Module LLMFactory.
Section Factory.
Context {NP : NumberParsing}.
Variable config : AppConfig.t.

Definition createOpenAIModel (env : process_env)
  : outcome chat_model * process_env :=
  if negb (truthy (AppConfig.openaiApiKey config))
  then (Throw (Error (lit "OPENAI_API_KEY is required for OpenAI provider")),
        env)
  else
    (Ok (mkChatModel OPENAI
           (or_else (getenv "OPENAI_MODEL" env) (lit "gpt-3.5-turbo"))
           (parseFloat (or_else (getenv "OPENAI_TEMPERATURE" env) (lit "0.7")))
           (AppConfig.openaiApiKey config)),
     env).

(** [createGeminiModel()]; it also sets [process.env.GOOGLE_API_KEY]. *)
Definition createGeminiModel (env : process_env)
  : outcome chat_model * process_env :=
  if negb (truthy (AppConfig.geminiApiKey config))
  then (Throw (Error (lit "GEMINI_API_KEY is required for Gemini provider")),
        env)
  else
    let env' :=
      set_entry (lit "GOOGLE_API_KEY") (AppConfig.geminiApiKey config) env in
    let configuredModel := getenv "GEMINI_MODEL" env' in
    let modelName :=
      match configuredModel with
      | Some m =>
          if truthy m && negb (includes (lit "image") m)
          then m
          else lit "gemini-pro"
      | None => lit "gemini-pro"
      end in
    (Ok (mkChatModel GEMINI modelName
           (parseFloat (or_else (getenv "GEMINI_TEMPERATURE" env') (lit "0.7")))
           (AppConfig.geminiApiKey config)),
     env').

Definition createChatModel (env : process_env)
  : outcome chat_model * process_env :=
  match AppConfig.getProvider config with
  | OPENAI => createOpenAIModel env
  | GEMINI => createGeminiModel env
  end.

Definition getProviderName : js_string := AppConfig.getProviderName config.

End Factory.
End LLMFactory.

(** A [LangChainImageGenerationStrategy] object: its two collaborators. *)
Record LangChainImageGenerationStrategy {NP : NumberParsing} : Type :=
  mkLangChain {
    chatModel : chat_model;
    imageClient : image_client
  }.
Arguments mkLangChain {NP} _ _.

Module ImageGenerationServiceFactory.
Section Factory.
Context {NP : NumberParsing}.
Variable config : AppConfig.t.

(** [new LangChainImageGenerationStrategy(imageClient)]: the chat model
    first, then the injected client or the factory's. *)
Definition newLangChainImageGenerationStrategy
    (injected : option image_client) (env : process_env)
  : outcome LangChainImageGenerationStrategy * process_env :=
  match LLMFactory.createChatModel config env with
  | (Ok model, env') =>
      match injected with
      | Some client => (Ok (mkLangChain model client), env')
      | None =>
          match ImageGenerationClientFactory.createClient config None with
          | Ok client => (Ok (mkLangChain model client), env')
          | Throw e => (Throw e, env')
          | Pending => (Pending, env')
          end
      end
  | (Throw e, env') => (Throw e, env')
  | (Pending, env') => (Pending, env')
  end.

(** [createStrategy(strategyType)]; [None] takes the default
    ['langchain'].  The lower-cased type is only compared with
    ['langchain'], whose letters no unit outside ASCII lower-cases to. *)
Definition createStrategy (strategyType : option js_string)
    (env : process_env)
  : outcome LangChainImageGenerationStrategy * process_env :=
  let strategyType :=
    match strategyType with Some s => s | None => lit "langchain" end in
  if JsString.eqb (toLowerCase strategyType) (lit "langchain")
  then newLangChainImageGenerationStrategy None env
  else
    (Throw (Error (lit "Unknown image generation strategy: "
                   +++ strategyType)),
     env).

Definition getAvailableStrategies : list js_string := [lit "langchain"].

End Factory.
End ImageGenerationServiceFactory.

Module AfterSaveScenario.

(** A successful [save] of a prompt with punctuation, without a size. *)
Definition run : outcome js_string * World :=
  FileImageRepository.save (RT := Demo.runtime) (EV := Demo.env)
    5 Demo.cat_url (lit "Sunset, at sea!") None (Some ImageQuality.HD)
    Demo.world0.

End AfterSaveScenario.

Module RecordFileScenario.

(** A record file without a [createdAt] property. *)
Definition nodate_bytes : list N :=
  Demo.stringify (JObj [ (lit "id", JStr (lit "nodate"));
                         (lit "prompt", JStr (lit "a dog")) ]).

Definition nodate : ImageMetadata :=
  mkImageMetadata (VStr (lit "nodate")) (VStr (lit "a dog")) InvalidDate
                  None None.

(** A storage directory with a record file that does not parse, and a
    record without a date next to its image. *)
Definition world : World :=
  mkWorld
    [(lit "./generated-images",
      [ (lit "broken.json", [7; 7; 7]%N);
        (lit "nodate.json", nodate_bytes);
        (lit "nodate.png", Demo.cat_bytes) ])]
    5000%Z 0 [].

Definition dated : ImageMetadata :=
  mkImageMetadata (VStr (lit "abc123")) (VStr (lit "a cat")) (ValidDate 1040)
                  None (Some JNull).

End RecordFileScenario.

Module GalleryScenario.


(** A storage directory with two records, the older one listed first, and
    a record file that does not parse. *)
Definition world : World :=
  mkWorld
    [(lit "./generated-images",
      [ (lit "a.json",
         Demo.stringify
           (record_object (lit "a") (lit "first") (Demo.isoString 1000)
              None None));
        (lit "broken.json", [7; 7; 7]%N);
        (lit "b.json",
         Demo.stringify
           (record_object (lit "b") (lit "second") (Demo.isoString 2000)
              None None)) ])]
    5000%Z 0 [].

End GalleryScenario.

Module GeminiScenario.

(** The demo environment with the provider set to Gemini. *)
#[export] Instance env : Env := {
  storagePath := lit "./generated-images";
  provider := GEMINI;
  uuid_at := fun _ => lit "abc123";
  http_get := fun _ _ _ => Response 200 None Demo.cat_bytes 40;
  disk_fault_at := fun _ _ => None;
  mkdir_fault_at := fun _ _ => None;
  chatModel_invoke := fun _ =>
    Ok (ContentText (lit "a cat, painted in watercolor, soft lighting"));
  openai_images_generate := fun _ _ _ => Ok (Some Demo.cat_url)
}.

End GeminiScenario.

Module FailedDownloadScenario.

(** The demo environment with a remote that answers 404 for the image. *)
#[export] Instance env : Env := {
  storagePath := lit "./generated-images";
  provider := OPENAI;
  uuid_at := fun _ => lit "abc123";
  http_get := fun _ _ _ => Response 404 None [] 15;
  disk_fault_at := fun _ _ => None;
  mkdir_fault_at := fun _ _ => None;
  chatModel_invoke := fun _ => Throw (Error (lit "offline"));
  openai_images_generate := fun _ _ _ => Ok (Some Demo.cat_url)
}.

End FailedDownloadScenario.

Module ApiFailureScenario.

(** The demo environment with an images API that rejects the request. *)
#[export] Instance env : Env := {
  storagePath := lit "./generated-images";
  provider := OPENAI;
  uuid_at := fun _ => lit "abc123";
  http_get := fun _ _ _ => Response 404 None [] 15;
  disk_fault_at := fun _ _ => None;
  mkdir_fault_at := fun _ _ => None;
  chatModel_invoke := fun _ => Throw (Error (lit "offline"));
  openai_images_generate := fun _ _ _ =>
    Throw (Error (lit "Billing hard limit has been reached"))
}.

End ApiFailureScenario.

Module DiskFullScenario.

(** The demo environment with a disk that refuses to open record files. *)
#[export] Instance env : Env := {
  storagePath := lit "./generated-images";
  provider := OPENAI;
  uuid_at := fun _ => lit "abc123";
  http_get := fun _ url _ =>
    if JsString.eqb url Demo.cat_url
    then Response 200 None Demo.cat_bytes 40
    else Response 404 None [] 1;
  disk_fault_at := fun p _ =>
    if endsWith (lit ".json") (base p)
    then Some (FailOpen (Error (lit "ENOSPC: no space left on device")))
    else None;
  mkdir_fault_at := fun _ _ => None;
  chatModel_invoke := fun _ => Throw (Error (lit "offline"));
  openai_images_generate := fun _ _ _ => Ok (Some Demo.cat_url)
}.

End DiskFullScenario.

Module ReadOnlyDiskScenario.

(** The demo environment on a disk where no directory can be created. *)
#[export] Instance env : Env := {
  storagePath := lit "./generated-images";
  provider := OPENAI;
  uuid_at := fun _ => lit "abc123";
  http_get := fun _ _ _ => NoReply;
  disk_fault_at := fun _ _ => None;
  mkdir_fault_at := fun _ _ =>
    Some (Error (lit "EROFS: read-only file system, mkdir"));
  chatModel_invoke := fun _ => Throw (Error (lit "offline"));
  openai_images_generate := fun _ _ _ => Ok (Some Demo.cat_url)
}.


End ReadOnlyDiskScenario.

Module ConfigScenario.

(** Numbers kept as the text they are parsed from. *)
#[export] Instance numbers : NumberParsing := {
  number := js_string;
  parseInt10 := fun text => text;
  parseFloat := fun text => text
}.

(** An environment that selects Gemini through [LLM_PROVIDER], with an
    image model configured for the chat model. *)
Definition gemini_env : process_env :=
  [ (lit "PROVIDER", []);
    (lit "LLM_PROVIDER", lit "Gemini");
    (lit "GEMINI_API_KEY", lit "g-key");
    (lit "GEMINI_MODEL", lit "gemini-2.0-flash-image") ].

Definition gemini_config : AppConfig.t :=
  AppConfig.mk GEMINI [] (lit "g-key") (lit "3000") (lit "development")
               (lit "./generated-images").

(** An environment that selects OpenAI by default. *)
Definition openai_env : process_env :=
  [ (lit "OPENAI_API_KEY", lit "sk-test");
    (lit "STORAGE_PATH", lit "/data/images") ].

Definition openai_config : AppConfig.t :=
  AppConfig.mk OPENAI (lit "sk-test") [] (lit "3000") (lit "development")
               (lit "/data/images").

End ConfigScenario.

(* ================================================================== *)
(** * Facts about strings *)
(* ================================================================== *)

Lemma trimStart_nil_iff (s : js_string) :
  trimStart s = [] <-> blank s = true.
Proof.
  induction s as [|c s IH]; simpl.
  - split; reflexivity.
  - destruct (isWhiteSpace c); simpl.
    + exact IH.
    + split; discriminate.
Qed.

Lemma blank_rev (s : js_string) : blank (rev s) = blank s.
Proof.
  unfold blank.
  destruct (forallb isWhiteSpace s) eqn:E.
  - apply forallb_forall. intros c Hc. apply in_rev in Hc.
    rewrite forallb_forall in E. auto.
  - destruct (forallb isWhiteSpace (rev s)) eqn:E'; [|reflexivity].
    rewrite forallb_forall in E'.
    assert (forallb isWhiteSpace s = true) as H.
    { apply forallb_forall. intros c Hc. apply E'. now apply -> in_rev. }
    congruence.
Qed.

Lemma blank_trimStart (s : js_string) : blank (trimStart s) = blank s.
Proof.
  induction s as [|c s IH]; simpl; [reflexivity|].
  destruct (isWhiteSpace c) eqn:E; simpl; [exact IH|].
  now rewrite E.
Qed.

Lemma rev_nil_iff (A : Type) (l : list A) : rev l = [] <-> l = [].
Proof.
  split; intros H.
  - rewrite <- (rev_involutive l), H. reflexivity.
  - now subst.
Qed.

(** Trimming leaves nothing exactly for the white-space-only strings. *)
Lemma trim_nil_iff (s : js_string) : trim s = [] <-> blank s = true.
Proof.
  unfold trim, trimEnd.
  etransitivity; [apply rev_nil_iff|].
  etransitivity; [apply trimStart_nil_iff|].
  rewrite blank_rev, blank_trimStart. reflexivity.
Qed.

Lemma length_trimStart (s : js_string) :
  List.length (trimStart s) <= List.length s.
Proof.
  induction s as [|c s IH]; simpl; [lia|].
  destruct (isWhiteSpace c); simpl; lia.
Qed.

Lemma length_trim (s : js_string) : List.length (trim s) <= List.length s.
Proof.
  unfold trim, trimEnd. rewrite length_rev.
  etransitivity; [apply length_trimStart|].
  rewrite length_rev. apply length_trimStart.
Qed.

(** The guard of [validate] fires exactly on the white-space-only strings. *)
Lemma validate_rejects_iff (prompt : js_string) :
  validate_rejects prompt = blank prompt.
Proof.
  unfold validate_rejects.
  destruct (blank prompt) eqn:B.
  - apply trim_nil_iff in B. rewrite B. simpl. apply orb_true_r.
  - assert (trim prompt <> []) as Ht.
    { intros H. apply trim_nil_iff in H. congruence. }
    destruct prompt as [|c s]; [discriminate B|].
    destruct (trim (c :: s)); [congruence|reflexivity].
Qed.

(** Construction of a request: it throws exactly on a white-space-only
    prompt, and otherwise keeps its three arguments. *)
Lemma newImageGenerationRequest_cases
    (prompt : js_string) (size quality : option js_string) :
  (blank prompt = true /\
   newImageGenerationRequest prompt size quality
   = Throw (Error (lit "Prompt cannot be empty")))
  \/
  (blank prompt = false /\
   exists r, newImageGenerationRequest prompt size quality = Ok r
             /\ req_prompt r = prompt).
Proof.
  unfold newImageGenerationRequest.
  rewrite validate_rejects_iff.
  destruct (blank prompt); [left|right]; split; try reflexivity.
  eexists. split; reflexivity.
Qed.

(** What [toLowerCase] is applied to holds ASCII letters, digits and dashes
    only. *)
Lemma replaceNonAlnum_ascii (s : js_string) :
  Forall (fun c => isAlnum c = true \/ c = dash) (replaceNonAlnum s).
Proof.
  unfold replaceNonAlnum. apply Forall_forall. intros c Hc.
  apply in_map_iff in Hc. destruct Hc as [x [<- _]].
  destruct (isAlnum x) eqn:E; [now left|now right].
Qed.

(** Every unit of a sanitized prompt is a lower-case letter, a digit or a
    dash. *)
Lemma sanitized_ascii (p : js_string) :
  Forall (fun c => isLower c || isDigit c || (c =? dash)%N = true)
         (ImageGenerationService.sanitizePrompt p).
Proof.
  unfold ImageGenerationService.sanitizePrompt, toLowerCase, replaceNonAlnum,
    substring0.
  rewrite map_map. apply Forall_forall. intros c Hc.
  apply in_map_iff in Hc. destruct Hc as [x [<- _]].
  unfold isAlnum, lowerUnit.
  destruct (isLower x) eqn:L; simpl.
  - assert (isUpper x = false) as ->.
    { unfold isLower, isUpper in *.
      apply andb_true_iff in L. destruct L as [L1 L2].
      apply N.leb_le in L1. apply andb_false_iff. right.
      apply N.leb_gt. lia. }
    now rewrite L.
  - destruct (isUpper x) eqn:U; simpl.
    + rewrite U. unfold isUpper, isLower, isDigit in *.
      apply andb_true_iff in U. destruct U as [U1 U2].
      apply N.leb_le in U1, U2.
      replace ((97 <=? x + 32) && (x + 32 <=? 122))%N with true; [reflexivity|].
      symmetry. apply andb_true_iff. split; apply N.leb_le; lia.
    + destruct (isDigit x) eqn:D; simpl.
      * rewrite U, L, D. reflexivity.
      * reflexivity.
Qed.

(* ================================================================== *)
(** * Request construction and the Generate guard *)
(* ================================================================== *)

(** C10. Construction of a generation request validates the prompt only:
    for every prompt that is non-empty after trimming and for arbitrary
    strings given as size and quality, whether or not they belong to the
    enumerations [ImageSize] and [ImageQuality], construction succeeds and
    the request holds the prompt, the size and the quality as given. *)
Theorem request_keeps_size_and_quality_verbatim :
  forall prompt size quality : js_string,
    trim prompt <> [] ->
    newImageGenerationRequest prompt (Some size) (Some quality)
    = Ok (mkRequest prompt size quality).
Proof.
  intros prompt size quality Hne.
  unfold newImageGenerationRequest.
  rewrite validate_rejects_iff.
  destruct (blank prompt) eqn:B; [|reflexivity].
  apply trim_nil_iff in B. contradiction.
Qed.

Lemma request_keeps_size_and_quality_verbatim_witness :
  ~ In (lit "banana") ImageSize.members
  /\ ~ In (lit "ultra") ImageQuality.members
  /\ newImageGenerationRequest (lit "a cat") (Some (lit "banana"))
                               (Some (lit "ultra"))
     = Ok (mkRequest (lit "a cat") (lit "banana") (lit "ultra")).
Proof.
  split; [|split].
  - intros [H|[H|[H|[]]]]; discriminate H.
  - intros [H|[H|[]]]; discriminate H.
  - apply (request_keeps_size_and_quality_verbatim
             (lit "a cat") (lit "banana") (lit "ultra")).
    vm_compute. discriminate.
Defined.

Section GenerateGuard.
Variable generationStrategy : IImageGenerationStrategy.
Variable imageRepository : IImageRepository.

Local Abbreviation generate :=
  (ImageController.generate generationStrategy imageRepository).

(** A missing, non-string or empty prompt is answered with 400 by the guard
    of the handler, before any request is built. *)
Lemma generate_missing_prompt_400 (body : generate_body) (w : World) :
  ImageController.accepted_prompt (body_prompt body) = None ->
  generate body w
  = (Ok (JsonReply 400 [(lit "error", JStr (lit "Prompt is required"))]), w).
Proof.
  intros H. unfold ImageController.generate, try_catch. now rewrite H.
Qed.

(** C2 (the handler on a white-space-only prompt). A prompt that is not
    empty but consists of white space passes the guard of the handler, the
    constructor of the request throws, and the [catch] block answers 500
    with the constructor's message. *)
Theorem generate_whitespace_prompt_500 (body : generate_body) (s : js_string)
    (w : World) :
  body_prompt body = VStr s ->
  s <> [] ->
  blank s = true ->
  generate body w
  = (Ok (JsonReply 500
           [ (lit "error", JStr (lit "Failed to generate image"));
             (lit "message", JStr (lit "Prompt cannot be empty")) ]), w).
Proof.
  intros Hb Hne Hblank.
  unfold ImageController.generate, try_catch, bind, lift.
  rewrite Hb. simpl.
  destruct s as [|c s]; [contradiction|]. simpl.
  unfold newImageGenerationRequest. rewrite validate_rejects_iff, Hblank.
  reflexivity.
Qed.

End GenerateGuard.

Lemma generate_whitespace_prompt_500_witness :
  fst (ImageController.generate Demo.strategy Demo.repository
         (mkBody (VStr (lit "   ")) None None) Demo.world0)
  = Ok (JsonReply 500
          [ (lit "error", JStr (lit "Failed to generate image"));
            (lit "message", JStr (lit "Prompt cannot be empty")) ]).
Proof.
  rewrite (@generate_whitespace_prompt_500 Demo.strategy Demo.repository
             (mkBody (VStr (lit "   ")) None None) (lit "   ") Demo.world0).
  - reflexivity.
  - reflexivity.
  - vm_compute. discriminate.
  - reflexivity.
Defined.

(* ================================================================== *)
(** * Prompt enhancement *)
(* ================================================================== *)

Section Enhancement.
Context {EV : Env}.

(** What [accept_enhancement] returns on a text completion. *)
Lemma accept_enhancement_text (originalPrompt s : js_string) :
  accept_enhancement originalPrompt (ContentText s)
  = Ok (if truthy s
           && (List.length originalPrompt <? List.length (trim s))
        then trim s else originalPrompt).
Proof.
  unfold accept_enhancement.
  destruct (truthy s && _); reflexivity.
Qed.

(** C4. The enhancement step never ends in an error and returns a prompt
    whenever the completion call settles.  If the call fails, or the
    completion is not text, or it is empty, or it is not strictly longer
    than the original prompt, the original prompt is returned unchanged.
    What decides is the length of the completion once trimmed: when the
    trimmed completion is strictly longer than the original prompt, the
    trimmed completion is returned; when it is not, the original prompt
    is. *)
Theorem enhance_decides_by_trimmed_length :
  forall (originalPrompt : js_string) (w : World),
    let completion := chatModel_invoke (promptTemplate_format originalPrompt) in
    let result := enhancePromptWithLangChain originalPrompt w in
    (forall e, fst result <> Throw e)
    /\ (completion <> Pending -> exists r, result = (Ok r, w))
    /\ (forall e, completion = Throw e -> result = (Ok originalPrompt, w))
    /\ (completion = Ok ContentParts -> result = (Ok originalPrompt, w))
    /\ (forall s, completion = Ok (ContentText s) ->
          (List.length originalPrompt < List.length (trim s) ->
           result = (Ok (trim s), w))
          /\ (List.length (trim s) <= List.length originalPrompt ->
              result = (Ok originalPrompt, w))
          /\ (s = [] \/ List.length s <= List.length originalPrompt ->
              result = (Ok originalPrompt, w)))
    /\ (completion = Pending -> result = (Pending, w)).
Proof.
  intros originalPrompt w. cbv zeta.
  unfold enhancePromptWithLangChain, try_catch, bind, lift.
  destruct (chatModel_invoke (promptTemplate_format originalPrompt))
    as [[s|] | e |].
  - rewrite accept_enhancement_text.
    split; [discriminate|].
    split; [intros _; eexists; reflexivity|].
    split; [discriminate|].
    split; [discriminate|].
    split; [|discriminate].
    intros s' Hs'. injection Hs' as <-.
    pose proof (length_trim s) as Ht.
    destruct (Nat.ltb_spec (List.length originalPrompt)
                           (List.length (trim s))) as [Hlt|Hge].
    + assert (truthy s = true) as ->.
      { destruct s as [|c s]; [|reflexivity].
        simpl in Hlt. lia. }
      cbn [andb].
      split; [reflexivity|].
      split; [lia|].
      intros [-> | H]; [simpl in Hlt|]; lia.
    + rewrite andb_false_r.
      split; [lia|]. split; reflexivity.
  - simpl.
    split; [discriminate|].
    split; [intros _; eexists; reflexivity|].
    split; [discriminate|].
    split; [reflexivity|].
    split; discriminate.
  - split; [discriminate|].
    split; [intros _; eexists; reflexivity|].
    split; [intros e' _; reflexivity|].
    split; [discriminate|].
    split; discriminate.
  - split; [discriminate|].
    split; [intros H; contradiction|].
    split; [discriminate|].
    split; [discriminate|].
    split; [discriminate|reflexivity].
Qed.

End Enhancement.

(** The test of the source compares the length of the trimmed completion:
    a completion longer than the original only by surrounding white space
    is not accepted. *)
Lemma padded_completion_not_accepted :
  List.length EnhanceScenario.original < List.length EnhanceScenario.padded
  /\ accept_enhancement EnhanceScenario.original
       (ContentText EnhanceScenario.padded)
     = Ok EnhanceScenario.original.
Proof. split; [vm_compute; lia|reflexivity]. Qed.

(** A completion that is non-empty and strictly longer than the original
    prompt, and yet is not what the step returns: the original prompt of
    seven units meets a completion of ten units, of which five remain once
    it is trimmed, and the original prompt comes back. *)
Lemma longer_completion_not_returned :
  chatModel_invoke (Env := EnhanceScenario.padding)
    (promptTemplate_format EnhanceScenario.original)
  = Ok (ContentText EnhanceScenario.padded)
  /\ List.length EnhanceScenario.padded = 10
  /\ List.length EnhanceScenario.original = 7
  /\ trim EnhanceScenario.padded = lit "a cat"
  /\ enhancePromptWithLangChain (EV := EnhanceScenario.padding)
       EnhanceScenario.original Demo.world0
     = (Ok EnhanceScenario.original, Demo.world0)
  /\ EnhanceScenario.original = lit "a catty".
Proof. repeat split. Qed.

Lemma enhance_decides_by_trimmed_length_witness :
  enhancePromptWithLangChain (EV := Demo.env) (lit "a cat") Demo.world0
  = (Ok (lit "a cat, painted in watercolor, soft lighting"), Demo.world0)
  /\ enhancePromptWithLangChain (EV := EnhanceScenario.offline) (lit "a cat")
       Demo.world0
     = (Ok (lit "a cat"), Demo.world0).
Proof.
  split.
  - pose proof (@enhance_decides_by_trimmed_length Demo.env
                  (lit "a cat") Demo.world0) as H.
    cbv zeta in H. destruct H as [_ [_ [_ [_ [H _]]]]].
    destruct (H (lit "a cat, painted in watercolor, soft lighting") eq_refl)
      as [Hlonger _].
    apply Hlonger. vm_compute. lia.
  - pose proof (@enhance_decides_by_trimmed_length EnhanceScenario.offline
                  (lit "a cat") Demo.world0) as H.
    cbv zeta in H. destruct H as [_ [_ [H _]]].
    apply (H (Error (lit "offline"))). reflexivity.
Defined.

(* ================================================================== *)
(** * The download filename *)
(* ================================================================== *)

Lemma length_sanitizePrompt (p : js_string) :
  List.length (ImageGenerationService.sanitizePrompt p)
  = Nat.min 50 (List.length p).
Proof.
  unfold ImageGenerationService.sanitizePrompt, toLowerCase, replaceNonAlnum,
    substring0.
  rewrite !length_map. apply length_firstn.
Qed.

Lemma nth_firstn_lt (A : Type) (d : A) (n i : nat) (l : list A) :
  i < n -> nth i (firstn n l) d = nth i l d.
Proof.
  revert i l. induction n as [|n IH]; intros i l Hi; [lia|].
  destruct l as [|x l]; [reflexivity|].
  destruct i as [|i]; simpl; [reflexivity|].
  apply IH. lia.
Qed.

Lemma nth_sanitizePrompt (p : js_string) (i : nat) :
  i < List.length (ImageGenerationService.sanitizePrompt p) ->
  nth i (ImageGenerationService.sanitizePrompt p) 0%N
  = (if isAlnum (nth i p 0%N) then lowerUnit (nth i p 0%N) else dash).
Proof.
  intros Hi. rewrite length_sanitizePrompt in Hi.
  unfold ImageGenerationService.sanitizePrompt, toLowerCase, replaceNonAlnum,
    substring0.
  rewrite map_map.
  set (f := fun c : N => lowerUnit (if isAlnum c then c else dash)).
  assert (i < List.length (firstn 50 p)) as Hi'.
  { rewrite length_firstn. exact Hi. }
  rewrite (nth_indep _ 0%N (f 0%N)) by (now rewrite length_map).
  rewrite map_nth. rewrite nth_firstn_lt by lia.
  unfold f. destruct (isAlnum (nth i p 0%N)); reflexivity.
Qed.

(** C8 (as the code has it). The download filename is a function of the
    stored prompt and the id: it is [artwork-], a slug, a dash, the id and
    [.png], where the slug has the length of the prompt cut at 50 units and
    holds, position by position, the lower-cased unit of the prompt when
    that unit is an ASCII letter or digit and a dash otherwise.  For the
    stored prompt "A Beautiful!! Sunset@Sea" and the id abc123 the filename
    is artwork-a-beautiful---sunset-sea-abc123.png, with one dash for each of
    the two exclamation marks and for the space after them. *)
Theorem download_filename_rule :
  forall (imageRepository : IImageRepository) (imageId : js_string)
         (w w' : World) (m : ImageMetadata) (p : js_string),
    repo_findById imageRepository imageId w = (Ok (Some m), w') ->
    prompt m = VStr p ->
    exists slug : js_string,
      ImageGenerationService.getDownloadFilename imageRepository imageId w
      = (Ok (lit "artwork-" +++ slug +++ lit "-" +++ imageId +++ lit ".png"),
         w')
      /\ List.length slug = Nat.min 50 (List.length p)
      /\ (forall i, i < List.length slug ->
            nth i slug 0%N
            = (if isAlnum (nth i p 0%N) then lowerUnit (nth i p 0%N)
               else dash))
      /\ (p = lit "A Beautiful!! Sunset@Sea" ->
          imageId = lit "abc123" ->
          lit "artwork-" +++ slug +++ lit "-" +++ imageId +++ lit ".png"
          = lit "artwork-a-beautiful---sunset-sea-abc123.png").
Proof.
  intros repo imageId w w' m p Hfind Hp.
  exists (ImageGenerationService.sanitizePrompt p).
  split; [|split; [|split]].
  - unfold ImageGenerationService.getDownloadFilename, bind.
    rewrite Hfind, Hp. reflexivity.
  - apply length_sanitizePrompt.
  - apply nth_sanitizePrompt.
  - intros -> ->. reflexivity.
Qed.

(** The filename of the scenario has three dashes after "beautiful", not
    the two of the example in the specification. *)
Lemma download_filename_example_differs :
  DownloadScenario.filename
  = Ok (lit "artwork-a-beautiful---sunset-sea-abc123.png")
  /\ DownloadScenario.filename
     <> Ok (lit "artwork-a-beautiful--sunset-sea-abc123.png").
Proof.
  split.
  - vm_compute. reflexivity.
  - vm_compute. discriminate.
Qed.

Lemma download_filename_rule_witness :
  exists slug : js_string,
    ImageGenerationService.getDownloadFilename Demo.repository (lit "abc123")
      DownloadScenario.stored
    = (Ok (lit "artwork-" +++ slug +++ lit "-" +++ lit "abc123"
           +++ lit ".png"),
       DownloadScenario.stored)
    /\ List.length slug = 24.
Proof.
  destruct (@download_filename_rule Demo.repository (lit "abc123")
              DownloadScenario.stored DownloadScenario.stored
              (mkImageMetadata (VStr (lit "abc123"))
                 (VStr (lit "A Beautiful!! Sunset@Sea"))
                 (ValidDate 1040) None None)
              (lit "A Beautiful!! Sunset@Sea"))
    as [slug [H1 [H2 _]]].
  - vm_compute. reflexivity.
  - reflexivity.
  - exists slug. split; [exact H1|exact H2].
Defined.

(* ================================================================== *)
(** * Reading the store *)
(* ================================================================== *)

Section ReadOnly.
Context {RT : Runtime} {EV : Env}.

(** Reading a record neither changes the world nor leaves a promise
    pending. *)
Lemma read_record_world (p : path) (w : World) :
  (exists m, FileImageRepository.read_record p w = (Ok m, w))
  \/ (exists e, FileImageRepository.read_record p w = (Throw e, w)).
Proof.
  unfold FileImageRepository.read_record, bind, readFileSync, lift.
  destruct (lookup_file p w) as [bytes|]; [|right; eexists; reflexivity].
  unfold parse_json.
  destruct (JSON_parse (utf8_decode bytes)) as [j|];
    [|right; eexists; reflexivity].
  simpl. destruct (fromJSON j) as [m|e|] eqn:F.
  - left. eexists. reflexivity.
  - right. eexists. reflexivity.
  - exfalso. unfold fromJSON, get_prop in F.
    destruct j; simpl in F; discriminate F.
Qed.

(** [findById] always resolves, and leaves the world as it was. *)
Lemma findById_world (imageId : js_string) (w : World) :
  exists r, FileImageRepository.findById imageId w = (Ok r, w).
Proof.
  unfold FileImageRepository.findById, bind, existsSync, try_catch.
  destruct (is_some _); simpl; [|eexists; reflexivity].
  destruct (read_record_world (FileImageRepository.getMetadataPath imageId) w)
    as [[m ->] | [e ->]]; eexists; reflexivity.
Qed.

(** Without a record file there is no record. *)
Lemma findById_no_file (imageId : js_string) (w : World) :
  lookup_file (FileImageRepository.getMetadataPath imageId) w = None ->
  FileImageRepository.findById imageId w = (Ok None, w).
Proof.
  intros H. unfold FileImageRepository.findById, bind, existsSync.
  rewrite H. reflexivity.
Qed.

End ReadOnly.

Section Retrieve.
Context {RT : Runtime}.

(** C9. Retrieval by id tells two failures apart, whatever repository the
    service is given.  When the repository has no record for the id, the
    lookup fails with "Image not found" and the handler answers 404; when
    it has a record but no image file, the lookup fails with the different
    message "Image file not found", again answered with 404; when it has
    both, and the record carries a valid date, the handler streams the
    image path of the id; and the handler streams a path only when the
    repository has both the record and the image file, the path being the
    image path of the id. *)
Theorem retrieve_not_found_cases :
  forall (repo : IImageRepository) (imageId : js_string) (w : World),
    (forall w1,
        repo_findById repo imageId w = (Ok None, w1) ->
        ImageGenerationService.getImageById repo imageId w
        = (Throw (Error (lit "Image not found")), w1)
        /\ ImageController.getById repo imageId w
           = (Ok (JsonReply 404
                    [(lit "error", JStr (lit "Image not found"))]), w1))
    /\ (forall m w1 w2,
          repo_findById repo imageId w = (Ok (Some m), w1) ->
          repo_exists repo imageId w1 = (Ok false, w2) ->
          ImageGenerationService.getImageById repo imageId w
          = (Throw (Error (lit "Image file not found")), w2)
          /\ ImageController.getById repo imageId w
             = (Ok (JsonReply 404
                      [(lit "error", JStr (lit "Image file not found"))]),
                w2))
    /\ (forall m w1 w2,
          repo_findById repo imageId w = (Ok (Some m), w1) ->
          repo_exists repo imageId w1 = (Ok true, w2) ->
          has_valid_date m ->
          ImageController.getById repo imageId w
          = (Ok (SendFile (repo_getImagePath repo imageId)), w2))
    /\ (forall p w',
          ImageController.getById repo imageId w = (Ok (SendFile p), w') ->
          p = repo_getImagePath repo imageId
          /\ exists m w1,
              repo_findById repo imageId w = (Ok (Some m), w1)
              /\ repo_exists repo imageId w1 = (Ok true, w'))
    /\ lit "Image not found" <> lit "Image file not found".
Proof.
  intros repo imageId w.
  split; [|split; [|split; [|split]]].
  - intros w1 Hfind.
    unfold ImageController.getById, ImageGenerationService.getImageById,
      try_catch, bind. rewrite Hfind. split; reflexivity.
  - intros m w1 w2 Hfind Hex.
    unfold ImageController.getById, ImageGenerationService.getImageById,
      try_catch, bind. rewrite Hfind, Hex. split; reflexivity.
  - intros m w1 w2 Hfind Hex Hvalid.
    unfold ImageController.getById, ImageGenerationService.getImageById,
      try_catch, bind. rewrite Hfind, Hex.
    unfold lift, toJSON, toISOString. unfold has_valid_date in Hvalid.
    destruct (createdAt m); [reflexivity|contradiction].
  - intros p w' H.
    unfold ImageController.getById, ImageGenerationService.getImageById,
      try_catch, bind in H.
    destruct (repo_findById repo imageId w) as [[[m|]|e|] w1] eqn:Hfind.
    + destruct (repo_exists repo imageId w1) as [[[|]|e|] w2] eqn:Hex.
      * unfold lift in H. destruct (toJSON m) as [j|e|]; simpl in H.
        -- injection H as <- <-. split; [reflexivity|].
           exists m, w1.
           split; [first [exact Hfind|reflexivity]
                  |first [exact Hex|reflexivity]].
        -- unfold ImageController.not_found_or in H.
           destruct (_ || _) in H; discriminate H.
        -- discriminate H.
      * simpl in H. discriminate H.
      * unfold ImageController.not_found_or in H.
        destruct (_ || _) in H; discriminate H.
      * discriminate H.
    + simpl in H. discriminate H.
    + unfold ImageController.not_found_or in H.
      destruct (_ || _) in H; discriminate H.
    + discriminate H.
  - discriminate.
Qed.

End Retrieve.

Lemma retrieve_not_found_cases_witness :
  ImageController.getById (RT := Demo.runtime) Demo.repository
    (lit "doesnotexist") Demo.world0
  = (Ok (JsonReply 404 [(lit "error", JStr (lit "Image not found"))]),
     Demo.world0)
  /\ ImageController.getById (RT := Demo.runtime)
       (FileImageRepository.repository (RT := Demo.runtime) (EV := Demo.env)
          5)
       (lit "a") LostImageScenario.world
     = (Ok (JsonReply 404 [(lit "error", JStr (lit "Image file not found"))]),
        LostImageScenario.world).
Proof.
  split.
  - pose proof (@retrieve_not_found_cases Demo.runtime Demo.repository
                  (lit "doesnotexist") Demo.world0) as [H _].
    apply (H Demo.world0). reflexivity.
  - pose proof (@retrieve_not_found_cases Demo.runtime
                  (FileImageRepository.repository (RT := Demo.runtime)
                     (EV := Demo.env) 5)
                  (lit "a") LostImageScenario.world) as [_ [H _]].
    apply (H UndatedScenario.a LostImageScenario.world
             LostImageScenario.world); vm_compute; reflexivity.
Defined.

(* ================================================================== *)
(** * Facts about the file system *)
(* ================================================================== *)

Lemma eqb_eq (a b : js_string) : JsString.eqb a b = true <-> a = b.
Proof.
  unfold JsString.eqb. destruct (JsString.eq_dec a b); split;
    congruence.
Qed.

Lemma eqb_refl (a : js_string) : JsString.eqb a a = true.
Proof. now apply eqb_eq. Qed.

Lemma eqb_neq (a b : js_string) : a <> b -> JsString.eqb a b = false.
Proof.
  intros H. destruct (JsString.eqb a b) eqn:E; [|reflexivity].
  apply eqb_eq in E. contradiction.
Qed.

Lemma assoc_set_entry_same (A : Type) (k : js_string) (v : A)
    (l : list (js_string * A)) :
  assoc k (set_entry k v l) = Some v.
Proof.
  induction l as [|[k' v'] l IH]; simpl.
  - now rewrite eqb_refl.
  - destruct (JsString.eqb k k') eqn:E; simpl.
    + now rewrite eqb_refl.
    + now rewrite E.
Qed.

Lemma assoc_set_entry_other (A : Type) (k k0 : js_string) (v : A)
    (l : list (js_string * A)) :
  k0 <> k -> assoc k0 (set_entry k v l) = assoc k0 l.
Proof.
  intros Hne. induction l as [|[k' v'] l IH]; simpl.
  - now rewrite (eqb_neq Hne).
  - destruct (JsString.eqb k k') eqn:E; simpl.
    + apply eqb_eq in E. subst k'. now rewrite (eqb_neq Hne).
    + now rewrite IH.
Qed.

Lemma lookup_file_put_same (p : path) (data : list N) (c : bool)
    (entries : directory) (w : World) :
  lookup_file p (put_file p data c entries w) = Some data.
Proof.
  unfold lookup_file, put_file. simpl.
  now rewrite !assoc_set_entry_same.
Qed.

Lemma lookup_file_put_other (p q : path) (data : list N) (c : bool)
    (entries : directory) (w : World) :
  q <> p ->
  assoc (dir p) (fs w) = Some entries ->
  lookup_file q (put_file p data c entries w) = lookup_file q w.
Proof.
  intros Hne Hdir. unfold lookup_file, put_file. simpl.
  destruct (JsString.eq_dec (dir q) (dir p)) as [Hd|Hd].
  - rewrite Hd, assoc_set_entry_same, Hdir.
    apply assoc_set_entry_other.
    intros Hb. apply Hne. destruct p, q; simpl in *; congruence.
  - now rewrite assoc_set_entry_other.
Qed.

Lemma dir_put_file (p : path) (data : list N) (c : bool)
    (entries : directory) (w : World) (d : js_string) :
  assoc (dir p) (fs w) = Some entries ->
  is_some (assoc d (fs (put_file p data c entries w)))
  = is_some (assoc d (fs w)).
Proof.
  intros Hdir. unfold put_file. simpl.
  destruct (JsString.eq_dec d (dir p)) as [->|Hd].
  - now rewrite assoc_set_entry_same, Hdir.
  - now rewrite assoc_set_entry_other.
Qed.

(** Closes the case of a call that ended without a value and without
    touching a file: every clause about the world holds as it stands. *)
Ltac nothing_written :=
  repeat split; auto; try (simpl; lia);
  right; split; [discriminate|now left].

Section WriteEffects.
Context {RT : Runtime} {EV : Env}.

(** What one write does to the world: time, identifiers and every other
    file stay as they are; the trace gains one event exactly when bytes
    reached the disk, and the event says "complete" exactly when the write
    succeeded. *)
Lemma write_file_effect (p : path) (data : list N) (w : World)
    (o : outcome unit) (w' : World) :
  write_file p data w = (o, w') ->
  clock w' = clock w
  /\ uuid_count w' = uuid_count w
  /\ (forall q, q <> p -> lookup_file q w' = lookup_file q w)
  /\ (forall d, is_some (assoc d (fs w')) = is_some (assoc d (fs w)))
  /\ ((o = Ok tt /\ trace w' = FileWritten p true :: trace w
       /\ lookup_file p w' = Some data)
      \/ (o <> Ok tt
          /\ (w' = w \/ trace w' = FileWritten p false :: trace w))).
Proof.
  unfold write_file. intros H.
  destruct (assoc (dir p) (fs w)) as [entries|] eqn:Hdir.
  - destruct (disk_fault_at p (clock w)) as [[e|n e]|];
      injection H as <- <-.
    + nothing_written.
    + repeat split; auto.
      * intros q Hq. now apply lookup_file_put_other.
      * intros d. now apply dir_put_file.
      * right. split; [discriminate|now right].
    + repeat split; auto.
      * intros q Hq. now apply lookup_file_put_other.
      * intros d. now apply dir_put_file.
      * left. repeat split. apply lookup_file_put_same.
  - injection H as <- <-. nothing_written.
Qed.

Lemma lookup_file_advance (q : path) (elapsed : N) (w : World) :
  lookup_file q (advance elapsed w) = lookup_file q w.
Proof. reflexivity. Qed.

(** What a download does to the world, whatever the number of redirects:
    time only moves forward, only the target file can change, and the trace
    gains a "complete" event exactly when the download resolved. *)
Lemma downloadImage_effect (fuel : nat) :
  forall (url : js_string) (p : path) (w : World) (o : outcome unit)
         (w' : World),
    FileImageRepository.downloadImage fuel url p w = (o, w') ->
    (clock w <= clock w')%Z
    /\ uuid_count w' = uuid_count w
    /\ (forall q, q <> p -> lookup_file q w' = lookup_file q w)
    /\ (forall d, is_some (assoc d (fs w')) = is_some (assoc d (fs w)))
    /\ ((o = Ok tt /\ trace w' = FileWritten p true :: trace w
         /\ lookup_file p w' <> None)
        \/ (o <> Ok tt
            /\ (trace w' = trace w
                \/ trace w' = FileWritten p false :: trace w))).
Proof.
  induction fuel as [|fuel IH]; intros url p w o w' H; simpl in H.
  - injection H as <- <-. nothing_written.
  - destruct (http_get (FileImageRepository.protocol_of url) url (clock w))
      as [code loc body dt | e dt |].
    + assert (clock w <= clock (advance dt w))%Z as Hclock
        by (simpl; lia).
      destruct (code =? 200)%N.
      * apply write_file_effect in H.
        destruct H as [Hc [Hu [Hq [Hd Ht]]]].
        split; [rewrite Hc; exact Hclock|].
        split; [exact Hu|]. split; [exact Hq|]. split; [exact Hd|].
        destruct Ht as [[-> [Ht Hl]] | [Hne [-> | Ht]]].
        -- left. repeat split; [exact Ht|]. rewrite Hl. discriminate.
        -- right. split; [exact Hne|now left].
        -- right. split; [exact Hne|now right].
      * destruct ((code =? 301) || (code =? 302))%N.
        -- destruct loc as [l|].
           ++ destruct (truthy l).
              ** apply IH in H.
                 destruct H as [Hc [Hu [Hq [Hd Ht]]]].
                 split; [lia|]. split; [exact Hu|].
                 split; [exact Hq|]. split; [exact Hd|]. exact Ht.
              ** injection H as <- <-. nothing_written.
           ++ injection H as <- <-. nothing_written.
        -- injection H as <- <-. nothing_written.
    + injection H as <- <-. nothing_written.
    + injection H as <- <-. nothing_written.
Qed.

End WriteEffects.

(* ================================================================== *)
(** * The download step *)
(* ================================================================== *)

Section Download.
Context {RT : Runtime} {EV : Env}.

(** A download resolves only on a response with status 200, whose body is
    then the content of the target file. *)
Lemma downloadImage_ok_200 (fuel : nat) :
  forall (url : js_string) (p : path) (w w' : World),
    FileImageRepository.downloadImage fuel url p w = (Ok tt, w') ->
    exists url' t location body elapsed,
      http_get (FileImageRepository.protocol_of url') url' t
      = Response 200 location body elapsed
      /\ lookup_file p w' = Some body.
Proof.
  induction fuel as [|fuel IH]; intros url p w w' H; simpl in H;
    [discriminate H|].
  destruct (http_get (FileImageRepository.protocol_of url) url (clock w))
    as [code loc body dt | e dt |] eqn:G; try discriminate H.
  destruct (code =? 200)%N eqn:C200.
  - apply N.eqb_eq in C200. subst code.
    exists url, (clock w), loc, body, dt. split; [exact G|].
    apply write_file_effect in H.
    destruct H as [_ [_ [_ [_ [[_ [_ Hl]] | [Hne _]]]]]];
      [exact Hl|congruence].
  - destruct ((code =? 301) || (code =? 302))%N; [|discriminate H].
    destruct loc as [l|]; [|discriminate H].
    destruct (truthy l); [|discriminate H].
    eapply IH. exact H.
Qed.

(** More fuel does not change a download that has settled. *)
Lemma downloadImage_fuel_mono (fuel : nat) :
  forall (fuel' : nat) (url : js_string) (p : path) (w : World)
         (o : outcome unit) (w' : World),
    FileImageRepository.downloadImage fuel url p w = (o, w') ->
    o <> Pending ->
    fuel <= fuel' ->
    FileImageRepository.downloadImage fuel' url p w = (o, w').
Proof.
  induction fuel as [|fuel IH]; intros fuel' url p w o w' H Hset Hle;
    simpl in H.
  - injection H as <- _. contradiction.
  - destruct fuel' as [|fuel']; [lia|]. simpl.
    destruct (http_get (FileImageRepository.protocol_of url) url (clock w))
      as [code loc body dt | e dt |]; try exact H.
    destruct (code =? 200)%N; [exact H|].
    destruct ((code =? 301) || (code =? 302))%N; [|exact H].
    destruct loc as [l|]; [|exact H].
    destruct (truthy l); [|exact H].
    apply IH; [exact H|exact Hset|lia].
Qed.

(** C7 (as the code has it). The download resolves only on a response
    with status 200, by writing the body to the target file.  On a 301 or a
    302 it requests the URL of the Location header instead; a 301 or 302
    without a (non-empty) Location header fails with "Redirect without
    location header"; every other status code, the other 2xx and 3xx codes
    included, fails with "Failed to download image: <code>". *)
Theorem downloadImage_status_cases :
  forall (fuel : nat) (url : js_string) (p : path) (w : World),
    (forall code location body elapsed,
        http_get (FileImageRepository.protocol_of url) url (clock w)
        = Response code location body elapsed ->
        let w1 := advance elapsed w in
        let run := FileImageRepository.downloadImage (S fuel) url p w in
        (code = 200%N -> run = write_file p body w1)
        /\ (code = 301%N \/ code = 302%N ->
            (forall l, location = Some l -> l <> [] ->
                       run = FileImageRepository.downloadImage fuel l p w1)
            /\ (location = None \/ location = Some [] ->
                run = (Throw (Error (lit "Redirect without location header")),
                       w1)))
        /\ (code <> 200%N -> code <> 301%N -> code <> 302%N ->
            run = (Throw (Error (lit "Failed to download image: "
                                 +++ ofN code)), w1)))
    /\ (forall w',
          FileImageRepository.downloadImage fuel url p w = (Ok tt, w') ->
          exists url' t location body elapsed,
            http_get (FileImageRepository.protocol_of url') url' t
            = Response 200 location body elapsed
            /\ lookup_file p w' = Some body).
Proof.
  intros fuel url p w. split.
  - intros code location body elapsed G. cbv zeta. simpl. rewrite G.
    split; [|split].
    + intros ->. reflexivity.
    + intros Hc.
      assert ((code =? 200)%N = false
              /\ ((code =? 301) || (code =? 302))%N = true) as [-> ->].
      { destruct Hc as [-> | ->]; split; reflexivity. }
      split.
      * intros l -> Hl. destruct l; [contradiction|reflexivity].
      * intros [-> | ->]; reflexivity.
    + intros H200 H301 H302.
      apply N.eqb_neq in H200, H301, H302.
      rewrite H200, H301, H302. reflexivity.
  - intros w'. apply downloadImage_ok_200.
Qed.

End Download.

Lemma downloadImage_status_cases_witness :
  FileImageRepository.downloadImage (EV := RedirectScenario.env) 5
    RedirectScenario.moved RedirectScenario.target Demo.world0
  = FileImageRepository.downloadImage (EV := RedirectScenario.env) 4
      Demo.cat_url RedirectScenario.target (advance 10 Demo.world0).
Proof.
  pose proof (@downloadImage_status_cases RedirectScenario.env 4
                RedirectScenario.moved RedirectScenario.target Demo.world0)
    as [H _].
  specialize (H 302%N (Some Demo.cat_url) [] 10%N eq_refl).
  cbv zeta in H. destruct H as [_ [H _]].
  destruct (H (or_intror eq_refl)) as [Hfollow _].
  apply (Hfollow Demo.cat_url eq_refl). vm_compute. discriminate.
Defined.

(** The 302 of the scenario is followed to the image, the 307 is not: the
    download fails on it although its Location header names the image. *)
Lemma temporary_redirect_not_followed :
  fst (RedirectScenario.download RedirectScenario.moved) = Ok tt
  /\ fst (RedirectScenario.download Demo.cat_url) = Ok tt
  /\ fst (RedirectScenario.download RedirectScenario.temporary)
     = Throw (Error (lit "Failed to download image: 307"))
  /\ lookup_file RedirectScenario.target
       (snd (RedirectScenario.download RedirectScenario.temporary))
     = None.
Proof. vm_compute. repeat split. Qed.

(* ================================================================== *)
(** * Saving: the order of the two writes *)
(* ================================================================== *)

Section SaveOrder.
Context {RT : Runtime} {EV : Env}.

Lemma image_path_not_metadata_path (imageId : js_string) :
  FileImageRepository.getMetadataPath imageId
  <> FileImageRepository.getImagePath imageId.
Proof.
  unfold FileImageRepository.getMetadataPath, FileImageRepository.getImagePath,
    path_join.
  intros H. injection H as H. apply app_inv_head in H.
  vm_compute in H. discriminate H.
Qed.

(** [save], once the download has been run: the rest of its body. *)
Lemma save_unfold (fuel : nat) (imageUrl prompt : js_string)
    (size quality : option js_string) (w : World) :
  let imageId := uuid_at (uuid_count w) in
  let w0 := snd (uuidv4 w) in
  FileImageRepository.save fuel imageUrl prompt size quality w
  = match FileImageRepository.downloadImage fuel imageUrl
            (FileImageRepository.getImagePath imageId) w0 with
    | (Ok _, w1) =>
        match writeFileSync (FileImageRepository.getMetadataPath imageId)
                (JSON_stringify
                   (record_object imageId prompt (toISOString_of (clock w1))
                      size quality)) w1 with
        | (Ok _, w2) => (Ok imageId, w2)
        | (Throw e, w2) => (Throw e, w2)
        | (Pending, w2) => (Pending, w2)
        end
    | (Throw e, w1) => (Throw e, w1)
    | (Pending, w1) => (Pending, w1)
    end.
Proof.
  cbv zeta. unfold FileImageRepository.save, bind, uuidv4. simpl snd.
  destruct (FileImageRepository.downloadImage _ _ _ _) as [[u|e|] w1];
    reflexivity.
Qed.

(** More fuel does not change a [save] that has settled. *)
Lemma save_fuel_mono (fuel fuel' : nat) (imageUrl userPrompt : js_string)
    (sizeTag qualityTag : option js_string) (w w' : World)
    (o : outcome js_string) :
  FileImageRepository.save fuel imageUrl userPrompt sizeTag qualityTag w
  = (o, w') ->
  o <> Pending ->
  fuel <= fuel' ->
  FileImageRepository.save fuel' imageUrl userPrompt sizeTag qualityTag w
  = (o, w').
Proof.
  intros H Hset Hle. rewrite save_unfold in *. cbv zeta in *.
  destruct (FileImageRepository.downloadImage fuel imageUrl _ _)
    as [d w1] eqn:D.
  assert (d <> Pending) as Hd.
  { intros ->. injection H as <- _. contradiction. }
  eapply downloadImage_fuel_mono in D; [|exact Hd|exact Hle].
  rewrite D. exact H.
Qed.

(** C3. [save] never writes the metadata file before the image: the
    metadata file is written only once the download to the image path has
    resolved, that is, after the complete image has been written; when the
    download fails (or never settles) [save] ends the same way and writes no
    metadata file, leaving the metadata path as it was; and when [save]
    succeeds, its two writes are the complete image followed by the
    metadata. *)
Theorem save_writes_image_before_metadata :
  forall (fuel : nat) (imageUrl prompt : js_string)
         (size quality : option js_string) (w : World),
    let imageId := uuid_at (uuid_count w) in
    let imagePath := FileImageRepository.getImagePath imageId in
    let metadataPath := FileImageRepository.getMetadataPath imageId in
    let download :=
      FileImageRepository.downloadImage fuel imageUrl imagePath
        (snd (uuidv4 w)) in
    let result :=
      FileImageRepository.save fuel imageUrl prompt size quality w in
    exists events : list fs_event,
      trace (snd result) = events ++ trace w
      /\ (forall c, In (FileWritten metadataPath c) events ->
            fst download = Ok tt
            /\ events = [FileWritten metadataPath c;
                         FileWritten imagePath true])
      /\ (fst download <> Ok tt ->
            (forall c, ~ In (FileWritten metadataPath c) events)
            /\ snd result = snd download
            /\ lookup_file metadataPath (snd result)
               = lookup_file metadataPath w
            /\ (forall e, fst download = Throw e -> fst result = Throw e)
            /\ (fst download = Pending -> fst result = Pending))
      /\ (forall id, fst result = Ok id ->
            id = imageId
            /\ events = [FileWritten metadataPath true;
                         FileWritten imagePath true]
            /\ lookup_file imagePath (snd result) <> None
            /\ lookup_file metadataPath (snd result) <> None).
Proof.
  intros fuel imageUrl prompt size quality w. cbv zeta.
  rewrite save_unfold. cbv zeta.
  set (imageId := uuid_at (uuid_count w)).
  pose proof (@image_path_not_metadata_path imageId) as Hpaths.
  destruct (FileImageRepository.downloadImage fuel imageUrl
              (FileImageRepository.getImagePath imageId) (snd (uuidv4 w)))
    as [o w1] eqn:D.
  apply downloadImage_effect in D.
  destruct D as [_ [_ [Hother [_ Htrace]]]].
  simpl fst. simpl snd.
  change (trace (snd (uuidv4 w))) with (trace w) in Htrace.
  assert (forall q, lookup_file q (snd (uuidv4 w)) = lookup_file q w) as Hw0
    by reflexivity.
  destruct Htrace as [[-> [Ht Himg]] | [Hne Ht]].
  - (* the download resolved *)
    unfold writeFileSync.
    destruct (write_file (FileImageRepository.getMetadataPath imageId) _ w1)
      as [o2 w2] eqn:W.
    apply write_file_effect in W.
    destruct W as [_ [_ [Hother2 [_ Hw]]]].
    assert (lookup_file (FileImageRepository.getImagePath imageId) w2
            <> None) as Himg2.
    { rewrite Hother2; [exact Himg|]. intros H. apply Hpaths. now symmetry. }
    destruct Hw as [[-> [Ht2 Hl2]] | [Hne2 [Heq | Ht2]]].
    + exists [FileWritten (FileImageRepository.getMetadataPath imageId) true;
              FileWritten (FileImageRepository.getImagePath imageId) true].
      simpl. rewrite Ht2, Ht.
      split; [reflexivity|]. split; [|split].
      * intros c [H | [H | []]].
        -- injection H as <-. split; reflexivity.
        -- exfalso. apply Hpaths. congruence.
      * intros H. contradiction.
      * intros id H. injection H as <-.
        repeat split; [exact Himg2|]. rewrite Hl2. discriminate.
    + rewrite Heq.
      exists [FileWritten (FileImageRepository.getImagePath imageId) true].
      destruct o2 as [[]|e2|]; [congruence| |]; simpl; rewrite Ht;
        (split; [reflexivity|]; split; [|split];
         [ intros c [H | []]; exfalso; apply Hpaths; congruence
         | intros H; contradiction
         | intros id H; discriminate H ]).
    + exists [FileWritten (FileImageRepository.getMetadataPath imageId) false;
              FileWritten (FileImageRepository.getImagePath imageId) true].
      destruct o2 as [[]|e2|]; [congruence| |]; simpl; rewrite Ht2, Ht;
        (split; [reflexivity|]; split; [|split];
         [ intros c [H | [H | []]];
           [ injection H as <-; split; reflexivity
           | exfalso; apply Hpaths; congruence ]
         | intros H; contradiction
         | intros id H; discriminate H ]).
  - (* the download failed or never settled *)
    assert (exists events,
               trace w1 = events ++ trace w
               /\ forall c,
                 ~ In (FileWritten (FileImageRepository.getMetadataPath imageId)
                         c) events) as [events [Hev Hnot]].
    { destruct Ht as [Ht | Ht].
      - exists []. split; [exact Ht|]. intros c [].
      - exists [FileWritten (FileImageRepository.getImagePath imageId) false].
        split; [exact Ht|].
        intros c [H | []]. apply Hpaths. congruence. }
    exists events.
    assert (lookup_file (FileImageRepository.getMetadataPath imageId) w1
            = lookup_file (FileImageRepository.getMetadataPath imageId) w)
      as Hmeta.
    { rewrite Hother; [apply Hw0|exact Hpaths]. }
    destruct o as [[]|e|]; [congruence| |]; simpl.
    + split; [exact Hev|]. split; [|split].
      * intros c Hc. exfalso. exact (Hnot c Hc).
      * intros _. split; [exact Hnot|]. split; [reflexivity|].
        split; [exact Hmeta|].
        split; [intros e' H; congruence|intros H; discriminate H].
      * intros id H. discriminate H.
    + split; [exact Hev|]. split; [|split].
      * intros c Hc. exfalso. exact (Hnot c Hc).
      * intros _. split; [exact Hnot|]. split; [reflexivity|].
        split; [exact Hmeta|].
        split; [intros e' H; discriminate H|reflexivity].
      * intros id H. discriminate H.
Qed.

End SaveOrder.

Lemma save_writes_image_before_metadata_witness :
  exists events : list fs_event,
    trace (snd WriteOrderScenario.run) = events ++ trace Demo.world0
    /\ events
       = [ FileWritten
             (FileImageRepository.getMetadataPath (EV := Demo.env)
                (lit "abc123")) true;
           FileWritten
             (FileImageRepository.getImagePath (EV := Demo.env)
                (lit "abc123")) true ].
Proof.
  pose proof (@save_writes_image_before_metadata Demo.runtime Demo.env 5
                Demo.cat_url (lit "a cat") None None Demo.world0) as H.
  cbv zeta in H. destruct H as [events [Ht [_ [_ Hok]]]].
  exists events. split; [exact Ht|].
  destruct (Hok (lit "abc123")) as [_ [Hev _]]; [|exact Hev].
  vm_compute. reflexivity.
Defined.

(* ================================================================== *)
(** * The small runtime satisfies the laws *)
(* ================================================================== *)

Lemma firstn_length_app (A : Type) (l r : list A) :
  firstn (List.length l) (l ++ r) = l.
Proof. induction l as [|x l IH]; simpl; [now destruct r|now rewrite IH]. Qed.

Lemma skipn_length_app (A : Type) (l r : list A) :
  skipn (List.length l) (l ++ r) = r.
Proof. induction l as [|x l IH]; simpl; [reflexivity|exact IH]. Qed.

Lemma take_put_string (s rest : js_string) :
  Demo.take_string (Demo.put_string s ++ rest) = Some (s, rest).
Proof.
  unfold Demo.take_string, Demo.put_string. simpl.
  rewrite Nat2N.id.
  destruct (Nat.leb_spec (List.length s) (List.length (s ++ rest)))
    as [_|H].
  - now rewrite firstn_length_app, skipn_length_app.
  - rewrite length_app in H. lia.
Qed.

Lemma take_put_props (props : list (js_string * json)) :
  string_valued props ->
  forall fuel, List.length props <= fuel ->
               Demo.take_props fuel (Demo.put_props props) = Some props.
Proof.
  induction 1 as [|[k j] props [v Hv] _ IH]; intros fuel Hfuel.
  - destruct fuel; reflexivity.
  - simpl in Hv. subst j. simpl in Hfuel.
    destruct fuel as [|fuel]; [lia|].
    change (Demo.put_props ((k, JStr v) :: props))
      with (Demo.put_string k
            ++ Demo.put_string v ++ Demo.put_props props).
    unfold Demo.take_props; fold Demo.take_props.
    rewrite take_put_string.
    change (Demo.put_string k ++ Demo.put_string v ++ Demo.put_props props)
      with (N.of_nat (List.length k)
            :: (k ++ Demo.put_string v ++ Demo.put_props props)).
    cbv iota beta.
    rewrite take_put_string, IH by lia. reflexivity.
Qed.

Lemma length_put_props (props : list (js_string * json)) :
  List.length props <= List.length (Demo.put_props props).
Proof.
  induction props as [|[k j] props IH]; simpl; [lia|].
  destruct j; simpl; rewrite ?length_app; simpl; rewrite ?length_app; lia.
Qed.

Lemma record_object_string_valued (i p c : js_string)
    (s q : option js_string) :
  exists props, record_object i p c s q = JObj props /\ string_valued props.
Proof.
  unfold record_object.
  eexists. split; [reflexivity|].
  destruct s, q; simpl; repeat constructor; simpl; eexists; reflexivity.
Qed.

#[export] Instance Demo_laws : RuntimeLaws Demo.runtime.
Proof.
  split.
  - intros i p c s q.
    cbn [JSON_parse JSON_stringify utf8_encode utf8_decode Demo.runtime].
    destruct (record_object_string_valued i p c s q) as [props [-> Hp]].
    unfold Demo.parse, Demo.stringify.
    rewrite take_put_props; [reflexivity|exact Hp|apply length_put_props].
  - intros t [Hlo Hhi].
    cbn [newDate toISOString_of Demo.runtime].
    unfold Demo.dateOf, VStr, Demo.isoString.
    unfold Demo.epoch_offset in *.
    destruct (N.leb_spec (Z.to_N (t + 8640000000000000))
                         (Z.to_N (2 * 8640000000000000))) as [_|H].
    + rewrite Z2N.id by lia. f_equal. lia.
    + apply Z2N.inj_lt in H; lia.
Qed.

(* ================================================================== *)
(** * Saving and reading back *)
(* ================================================================== *)

Section RoundTrip.
Context {RT : Runtime} {EV : Env}.

Lemma fromJSON_record_object (i p c : js_string) (s q : option js_string) :
  fromJSON (record_object i p c s q)
  = Ok (mkImageMetadata (VStr i) (VStr p) (newDate (VStr c))
          (option_map JStr s) (option_map JStr q)).
Proof. destruct s, q; reflexivity. Qed.

Hypothesis laws : RuntimeLaws RT.

(** C5. After a successful [save] returning an id, [findById] of that id
    returns a record whose prompt, size and quality are the ones given to
    [save], and whose creation time lies between the time at which [save]
    was called and the time at which it returned. *)
Theorem save_then_findById :
  forall (fuel : nat) (imageUrl userPrompt : js_string)
         (sizeTag qualityTag : option js_string) (w w' : World)
         (imageId : js_string),
    FileImageRepository.save fuel imageUrl userPrompt sizeTag qualityTag w
    = (Ok imageId, w') ->
    time_in_range (clock w') ->
    exists (m : ImageMetadata) (t : Z),
      FileImageRepository.findById imageId w' = (Ok (Some m), w')
      /\ id m = VStr imageId
      /\ prompt m = VStr userPrompt
      /\ size m = option_map JStr sizeTag
      /\ quality m = option_map JStr qualityTag
      /\ createdAt m = ValidDate t
      /\ (clock w <= t <= clock w')%Z.
Proof.
  intros fuel imageUrl userPrompt sizeTag qualityTag w w' imageId Hsave
    Hrange.
  rewrite save_unfold in Hsave. cbv zeta in Hsave.
  destruct (FileImageRepository.downloadImage fuel imageUrl _ _)
    as [o w1] eqn:D.
  destruct o as [u|e|]; try discriminate Hsave.
  apply downloadImage_effect in D.
  destruct D as [Hclock _].
  change (clock (snd (uuidv4 w))) with (clock w) in Hclock.
  unfold writeFileSync in Hsave.
  destruct (write_file _ _ w1) as [o2 w2] eqn:W.
  destruct o2 as [u2|e|]; try discriminate Hsave.
  injection Hsave as <- ->.
  apply write_file_effect in W.
  destruct W as [Hc [_ [_ [_ [[_ [_ Hl]] | [Hne _]]]]]];
    [|destruct u2; congruence].
  set (imageId := uuid_at (uuid_count w)) in *.
  exists (mkImageMetadata (VStr imageId) (VStr userPrompt)
            (ValidDate (clock w1))
            (option_map JStr sizeTag) (option_map JStr qualityTag)),
         (clock w1).
  split.
  - unfold FileImageRepository.findById, bind, existsSync, try_catch.
    rewrite Hl. cbn [is_some negb].
    unfold FileImageRepository.read_record, bind, readFileSync, lift.
    rewrite Hl. unfold parse_json.
    rewrite record_roundtrip, fromJSON_record_object.
    rewrite date_roundtrip by (rewrite <- Hc; exact Hrange).
    reflexivity.
  - repeat split; cbn [createdAt]; lia.
Qed.

End RoundTrip.

Lemma save_then_findById_witness :
  exists (m : ImageMetadata) (t : Z),
    FileImageRepository.findById (RT := Demo.runtime) (EV := Demo.env)
      (lit "abc123") SaveScenario.saved
    = (Ok (Some m), SaveScenario.saved)
    /\ id m = VStr (lit "abc123")
    /\ prompt m = VStr (lit "a cat")
    /\ size m = option_map JStr (Some ImageSize.LANDSCAPE)
    /\ quality m = option_map JStr (Some ImageQuality.HD)
    /\ createdAt m = ValidDate t
    /\ (clock Demo.world0 <= t <= clock SaveScenario.saved)%Z.
Proof.
  apply (@save_then_findById Demo.runtime Demo.env Demo_laws 5 Demo.cat_url
           (lit "a cat") (Some ImageSize.LANDSCAPE) (Some ImageQuality.HD)
           Demo.world0 SaveScenario.saved (lit "abc123")).
  - vm_compute. reflexivity.
  - vm_compute. split; discriminate.
Defined.

(* ================================================================== *)
(** * Sorting *)
(* ================================================================== *)

Section SortPermutation.
Variable A : Type.
Variable comparefn : A -> A -> option Z.

Lemma sort_insert_perm (x : A) (l : list A) :
  Permutation (sort_insert comparefn x l) (x :: l).
Proof.
  induction l as [|y l IH]; simpl; [reflexivity|].
  destruct (comes_after comparefn x y); [|reflexivity].
  rewrite IH. apply perm_swap.
Qed.

Lemma Array_sort_perm (l : list A) : Permutation (Array_sort comparefn l) l.
Proof.
  induction l as [|x l IH]; simpl; [reflexivity|].
  rewrite sort_insert_perm. now apply perm_skip.
Qed.

End SortPermutation.

Lemma comes_after_valid (a b : ImageMetadata) :
  has_valid_date a -> has_valid_date b ->
  comes_after byCreatedAtDesc a b = (time_value a <? time_value b)%Z.
Proof.
  unfold has_valid_date, comes_after, byCreatedAtDesc, time_value.
  destruct (createdAt a) as [ta|], (createdAt b) as [tb|];
    intros Ha Hb; try congruence.
  simpl. destruct (Z.ltb_spec 0 (tb - ta)), (Z.ltb_spec ta tb);
    try reflexivity; lia.
Qed.

Lemma sort_insert_sorted (x : ImageMetadata) (l : list ImageMetadata) :
  has_valid_date x -> Forall has_valid_date l ->
  StronglySorted newer_or_same l ->
  StronglySorted newer_or_same (sort_insert byCreatedAtDesc x l).
Proof.
  intros Hx Hl Hs. induction Hs as [|y l Hs IH Hy]; simpl.
  - repeat constructor.
  - inversion Hl as [|? ? Hvy Hvl]; subst.
    rewrite (comes_after_valid Hx Hvy).
    destruct (Z.ltb_spec (time_value x) (time_value y)) as [Hlt|Hge].
    + constructor; [now apply IH|].
      rewrite sort_insert_perm. constructor; [|exact Hy].
      unfold newer_or_same. lia.
    + constructor; [now constructor|].
      constructor; [exact Hge|].
      eapply Forall_impl; [|exact Hy].
      unfold newer_or_same. intros z Hz. lia.
Qed.

Lemma Array_sort_sorted (l : list ImageMetadata) :
  Forall has_valid_date l ->
  StronglySorted newer_or_same (Array_sort byCreatedAtDesc l).
Proof.
  induction 1 as [|x l Hx Hl IH]; simpl; [constructor|].
  apply sort_insert_sorted; [exact Hx| |exact IH].
  now rewrite Array_sort_perm.
Qed.

(** A list sorted newest first that rearranges a list of strictly
    decreasing times is that list. *)
Lemma sorted_permutation_unique (l1 : list ImageMetadata) :
  forall l2,
    StronglySorted newer_or_same l1 ->
    StronglySorted strictly_newer l2 ->
    Permutation l1 l2 -> l1 = l2.
Proof.
  induction l1 as [|x l1 IH]; intros l2 H1 H2 HP.
  - apply Permutation_nil in HP. now subst.
  - destruct l2 as [|y l2];
      [apply Permutation_sym, Permutation_nil in HP; discriminate HP|].
    inversion H1 as [|? ? H1' Hx]; subst.
    inversion H2 as [|? ? H2' Hy]; subst.
    assert (x = y) as ->.
    { assert (In x (y :: l2)) as [Hxy | Hxin]
        by (eapply Permutation_in; [exact HP|now left]);
        [now subst|].
      assert (In y (x :: l1)) as [Hyx | Hyin]
        by (eapply Permutation_in;
            [apply Permutation_sym; exact HP|now left]);
        [exact Hyx|].
      rewrite Forall_forall in Hx, Hy.
      specialize (Hx _ Hyin). specialize (Hy _ Hxin).
      unfold newer_or_same, strictly_newer in *. lia. }
    f_equal. apply IH; [exact H1'|exact H2'|].
    eapply Permutation_cons_inv. exact HP.
Qed.

(* ================================================================== *)
(** * Listing the store *)
(* ================================================================== *)

Section Listing.
Context {RT : Runtime} {EV : Env}.

Lemma findAll_loop_spec (files : list js_string) :
  forall (images : list ImageMetadata) (w : World),
    FileImageRepository.findAll_loop files images w
    = (Ok (images ++ records_of w files), w).
Proof.
  induction files as [|file files IH]; intros images w; simpl.
  - unfold ret. now rewrite app_nil_r.
  - unfold bind at 1. unfold try_catch, bind at 1, record_of_file.
    destruct (read_record_world (path_join storagePath file) w)
      as [[m Hm] | [e He]].
    + rewrite Hm. simpl. rewrite IH. now rewrite <- app_assoc.
    + rewrite He. simpl. now rewrite IH.
Qed.

Lemma findAll_spec (w : World) :
  FileImageRepository.findAll w
  = (Ok (Array_sort byCreatedAtDesc (parsable_records w)), w).
Proof.
  unfold FileImageRepository.findAll, parsable_records, json_files, bind,
    existsSync_dir, readdirSync.
  destruct (assoc storagePath (fs w)) as [entries|] eqn:E;
    cbn [is_some negb]; [|reflexivity].
  unfold bind, readdirSync. rewrite E, findAll_loop_spec. reflexivity.
Qed.

(** C6. [findAll] goes through the [*.json] entries of the storage
    directory; it always returns, and what it returns consists exactly of
    the records of the entries that parse, an entry that does not parse
    being left out without effect on the others; when every one of these
    records carries a valid date, they are in descending order of
    [createdAt]; in particular three records with times t1 < t2 < t3 come
    back as t3, t2, t1, in whatever order the directory lists them. *)
Theorem findAll_newest_first :
  forall w : World,
    exists images : list ImageMetadata,
      FileImageRepository.findAll w = (Ok images, w)
      /\ (forall m, In m images <->
                    exists file, In file (json_files w)
                                 /\ record_of_file w file = Some m)
      /\ Permutation images (parsable_records w)
      /\ (Forall has_valid_date images ->
          StronglySorted newer_or_same images)
      /\ (forall r1 r2 r3 t1 t2 t3,
            Permutation (parsable_records w) [r1; r2; r3] ->
            createdAt r1 = ValidDate t1 ->
            createdAt r2 = ValidDate t2 ->
            createdAt r3 = ValidDate t3 ->
            (t1 < t2 < t3)%Z ->
            images = [r3; r2; r1]).
Proof.
  intros w. exists (Array_sort byCreatedAtDesc (parsable_records w)).
  pose proof (Array_sort_perm byCreatedAtDesc (parsable_records w)) as HP.
  split; [apply findAll_spec|].
  split; [|split; [exact HP|split]].
  - intros m. split.
    + intros Hin. apply (Permutation_in _ HP) in Hin.
      unfold parsable_records, records_of in Hin.
      apply in_flat_map in Hin. destruct Hin as [file [Hf Hm]].
      exists file. split; [exact Hf|].
      destruct (record_of_file w file) as [m'|]; [|destruct Hm].
      destruct Hm as [-> | []]. reflexivity.
    + intros [file [Hf Hm]].
      apply (Permutation_in _ (Permutation_sym HP)).
      unfold parsable_records, records_of. apply in_flat_map.
      exists file. split; [exact Hf|]. rewrite Hm. now left.
  - intros Hvalid. apply Array_sort_sorted.
    eapply Permutation_Forall; [exact HP|exact Hvalid].
  - intros r1 r2 r3 t1 t2 t3 Hperm H1 H2 H3 [H12 H23].
    assert (Permutation (parsable_records w) [r3; r2; r1]) as Hperm'.
    { rewrite Hperm. exact (Permutation_rev [r1; r2; r3]). }
    assert (Forall has_valid_date (parsable_records w)) as Hvalid.
    { eapply Permutation_Forall; [apply Permutation_sym; exact Hperm|].
      unfold has_valid_date.
      repeat constructor; congruence. }
    apply sorted_permutation_unique.
    + now apply Array_sort_sorted.
    + unfold strictly_newer, time_value.
      repeat constructor; rewrite ?H1, ?H2, ?H3; lia.
    + now rewrite HP.
Qed.

End Listing.

(** One record file without a [createdAt] among the parsable ones, and the
    listing is no longer in descending order: the comparator yields NaN
    wherever the undated record is involved, and the record of time 1000
    stays before the record of time 3000. *)
Lemma findAll_undated_record_breaks_order :
  FileImageRepository.findAll (RT := Demo.runtime) (EV := Demo.env)
    UndatedScenario.world
  = (Ok [UndatedScenario.a; UndatedScenario.b; UndatedScenario.c],
     UndatedScenario.world)
  /\ parsable_records (RT := Demo.runtime) (EV := Demo.env)
       UndatedScenario.world
     = [UndatedScenario.a; UndatedScenario.b; UndatedScenario.c]
  /\ createdAt UndatedScenario.a = ValidDate 1000
  /\ createdAt UndatedScenario.b = InvalidDate
  /\ createdAt UndatedScenario.c = ValidDate 3000
  /\ strictly_newer UndatedScenario.c UndatedScenario.a.
Proof.
  split; [vm_compute; reflexivity|].
  split; [vm_compute; reflexivity|].
  repeat split.
Qed.

Lemma findAll_newest_first_witness :
  ListingScenario.listed
  = Ok [ListingScenario.r3; ListingScenario.r2; ListingScenario.r1].
Proof.
  unfold ListingScenario.listed.
  destruct (@findAll_newest_first Demo.runtime Demo.env ListingScenario.world)
    as [images [H [_ [_ [_ H3]]]]].
  rewrite H. simpl fst. f_equal.
  apply (H3 ListingScenario.r1 ListingScenario.r2 ListingScenario.r3
            1000%Z 2000%Z 3000%Z); try reflexivity; [|lia].
  assert (parsable_records (RT := Demo.runtime) (EV := Demo.env)
            ListingScenario.world
          = [ListingScenario.r2; ListingScenario.r1; ListingScenario.r3])
    as -> by (vm_compute; reflexivity).
  apply perm_swap.
Defined.

(* ================================================================== *)
(** * The generation pipeline *)
(* ================================================================== *)

Section Pipeline.
Context {RT : Runtime} {EV : Env}.
Variable fuel : nat.

Local Abbreviation repo := (FileImageRepository.repository fuel).

(** The strategy talks to the remote services only: it leaves the world as
    it is. *)
Lemma createStrategy_world (p s q : js_string) (w : World) :
  snd (strategy_generate createStrategy p s q w) = w.
Proof.
  unfold createStrategy, strategy_generate, LangChain_generate, try_catch,
    bind, enhancePromptWithLangChain, try_catch, bind, lift,
    rethrow_generation_failure, throw, ret.
  destruct (chatModel_invoke (promptTemplate_format p)) as [c|e|];
    [destruct (accept_enhancement p c) as [p'|e|]| |];
    unfold createClient; destruct provider; simpl;
    unfold OpenAIImageGenerationClient_generateImage,
      GeminiImageGenerationClient_generateImage, try_catch, bind, lift,
      rethrow_generation_failure, throw, ret;
    try reflexivity;
    match goal with
    | |- context [openai_images_generate ?a ?b ?c] =>
        destruct (openai_images_generate a b c) as [[u|]|e'|];
        try reflexivity; destruct (truthy u); reflexivity
    end.
Qed.

(** [save] returns the identifier it has just drawn. *)
Lemma save_returns_drawn_id (imageUrl userPrompt : js_string)
    (sizeTag qualityTag : option js_string) (w w' : World)
    (imageId : js_string) :
  FileImageRepository.save fuel imageUrl userPrompt sizeTag qualityTag w
  = (Ok imageId, w') ->
  imageId = uuid_at (uuid_count w) /\ uuid_count w' = S (uuid_count w).
Proof.
  intros Hsave. rewrite save_unfold in Hsave. cbv zeta in Hsave.
  destruct (FileImageRepository.downloadImage fuel imageUrl _ _)
    as [o w1] eqn:D.
  destruct o as [u|e|]; try discriminate Hsave.
  apply downloadImage_effect in D. destruct D as [_ [Hu _]].
  unfold writeFileSync in Hsave.
  destruct (write_file _ _ w1) as [o2 w2] eqn:W.
  destruct o2 as [u2|e|]; try discriminate Hsave.
  apply write_file_effect in W. destruct W as [_ [Hu2 _]].
  injection Hsave as <- <-. split; [reflexivity|].
  rewrite Hu2, Hu. reflexivity.
Qed.

(** C1 (as the code has it). When the pipeline succeeds on a request it
    returns the identifier that [save] has just drawn, the URL
    [/api/images/<id>] built from it, and the prompt of the request as the
    user gave it, whatever the enhancer made of it; and the Generate handler,
    on a body that yields this request, answers 200 with the JSON object of
    the keys [success] (true), [imageId], [imageUrl] and [prompt] carrying
    those values. *)
Theorem generate_returns_id_url_and_original_prompt :
  forall (request : ImageGenerationRequest) (w w' : World)
         (result : generation_result),
    ImageGenerationService.generateImage createStrategy repo request w
    = (Ok result, w') ->
    imageId result = uuid_at (uuid_count w)
    /\ uuid_count w' = S (uuid_count w)
    /\ imageUrl result = lit "/api/images/" +++ imageId result
    /\ result_prompt result = req_prompt request
    /\ (forall body : generate_body,
          ImageController.accepted_prompt (body_prompt body)
          = Some (req_prompt request) ->
          newImageGenerationRequest (req_prompt request)
            (Some match body_size body with
                  | Some s => s
                  | None => lit "1024x1024"
                  end)
            (Some match body_quality body with
                  | Some q => q
                  | None => lit "standard"
                  end)
          = Ok request ->
          ImageController.generate createStrategy repo body w
          = (Ok (JsonReply 200
                   [ (lit "success", JBool true);
                     (lit "imageId", JStr (imageId result));
                     (lit "imageUrl", JStr (imageUrl result));
                     (lit "prompt", JStr (req_prompt request)) ]), w')).
Proof.
  intros request w w' result Hgen.
  assert (imageId result = uuid_at (uuid_count w)
          /\ uuid_count w' = S (uuid_count w)
          /\ imageUrl result = lit "/api/images/" +++ imageId result
          /\ result_prompt result = req_prompt request) as Hres.
  { pose proof Hgen as H.
    unfold ImageGenerationService.generateImage, try_catch, bind in H.
    pose proof (createStrategy_world (req_prompt request) (req_size request)
                  (req_quality request) w) as Hw.
    destruct (strategy_generate createStrategy _ _ _ w) as [o w1].
    simpl in Hw. subst w1.
    destruct o as [url|e|]; try discriminate H.
    destruct (truthy url); simpl in H; [|discriminate H].
    destruct (FileImageRepository.save fuel url _ _ _ w) as [o2 w2] eqn:S.
    destruct o2 as [i|e|]; try discriminate H.
    apply save_returns_drawn_id in S. destruct S as [-> Hu].
    injection H as <- <-. simpl. auto. }
  destruct Hres as [H1 [H2 [H3 H4]]].
  repeat (split; [assumption|]).
  intros body Hprompt Hreq.
  unfold ImageController.generate, try_catch, bind, lift.
  rewrite Hprompt, Hreq, Hgen, H4. reflexivity.
Qed.

End Pipeline.

(** The reply of the scenario carries the id and the URL under the keys
    [imageId] and [imageUrl]; it has no key [id] and no key [url]. *)
Lemma generate_reply_has_no_id_or_url_key :
  exists reply_body,
    fst GenerateScenario.run = Ok (JsonReply 200 reply_body)
    /\ assoc (lit "id") reply_body = None
    /\ assoc (lit "url") reply_body = None
    /\ assoc (lit "imageId") reply_body = Some (JStr (lit "abc123"))
    /\ assoc (lit "imageUrl") reply_body
       = Some (JStr (lit "/api/images/abc123"))
    /\ assoc (lit "prompt") reply_body = Some (JStr (lit "a cat")).
Proof.
  eexists. vm_compute. repeat split.
Qed.

Lemma generate_returns_id_url_and_original_prompt_witness :
  GenerateScenario.run
  = (Ok (JsonReply 200
           [ (lit "success", JBool true);
             (lit "imageId", JStr (lit "abc123"));
             (lit "imageUrl", JStr (lit "/api/images/abc123"));
             (lit "prompt", JStr (lit "a cat")) ]),
     snd GenerateScenario.run).
Proof.
  destruct (@generate_returns_id_url_and_original_prompt
              Demo.runtime Demo.env 5
              (mkRequest (lit "a cat") (lit "1024x1024") (lit "standard"))
              Demo.world0 (snd GenerateScenario.run)
              (mkResult (lit "abc123") (lit "/api/images/abc123")
                        (lit "a cat")))
    as [_ [_ [_ [_ H]]]].
  - vm_compute. reflexivity.
  - apply (H GenerateScenario.body); reflexivity.
Defined.

(* ================================================================== *)
(** * After a successful save *)
(* ================================================================== *)

Section AfterSave.
Context {RT : Runtime} {EV : Env}.

(** What a successful [save] leaves on disk. *)
Lemma save_ok_effect (fuel : nat) (imageUrl userPrompt : js_string)
    (sizeTag qualityTag : option js_string) (w w' : World)
    (imageId : js_string) :
  FileImageRepository.save fuel imageUrl userPrompt sizeTag qualityTag w
  = (Ok imageId, w') ->
  imageId = uuid_at (uuid_count w)
  /\ lookup_file (FileImageRepository.getImagePath imageId) w' <> None
  /\ lookup_file (FileImageRepository.getMetadataPath imageId) w'
     = Some (utf8_encode
               (JSON_stringify
                  (record_object imageId userPrompt
                     (toISOString_of (clock w')) sizeTag qualityTag))).
Proof.
  intros Hsave. rewrite save_unfold in Hsave. cbv zeta in Hsave.
  destruct (FileImageRepository.downloadImage fuel imageUrl _ _)
    as [o w1] eqn:D.
  destruct o as [u|e|]; try discriminate Hsave.
  apply downloadImage_effect in D.
  destruct D as [_ [_ [_ [_ [[_ [_ Himg]] | [Hne _]]]]]];
    [|destruct u; congruence].
  unfold writeFileSync in Hsave.
  destruct (write_file _ _ w1) as [o2 w2] eqn:W.
  destruct o2 as [u2|e|]; try discriminate Hsave.
  injection Hsave as <- ->.
  apply write_file_effect in W.
  destruct W as [Hc [_ [Hother [_ [[_ [_ Hl]] | [Hne _]]]]]];
    [|destruct u2; congruence].
  split; [reflexivity|]. split.
  - rewrite Hother; [exact Himg|].
    intros H. apply (@image_path_not_metadata_path EV (uuid_at (uuid_count w))).
    now symmetry.
  - rewrite Hc. exact Hl.
Qed.

(** The image file is in place after a successful [save]. *)
Lemma exists_after_save_fact (fuel : nat) (imageUrl userPrompt : js_string)
    (sizeTag qualityTag : option js_string) (w w' : World)
    (imageId : js_string) :
  FileImageRepository.save fuel imageUrl userPrompt sizeTag qualityTag w
  = (Ok imageId, w') ->
  FileImageRepository.exists_ imageId w' = (Ok true, w').
Proof.
  intros Hsave.
  apply save_ok_effect in Hsave. destruct Hsave as [_ [Himg _]].
  unfold FileImageRepository.exists_, existsSync.
  destruct (lookup_file (FileImageRepository.getImagePath imageId) w');
    [reflexivity|contradiction].
Qed.

(** X1. Right after a successful [save], [exists] answers true for the id
    that [save] returned. *)
Theorem exists_after_save :
  forall (fuel : nat) (imageUrl userPrompt : js_string)
         (sizeTag qualityTag : option js_string) (w w' : World)
         (imageId : js_string),
    FileImageRepository.save fuel imageUrl userPrompt sizeTag qualityTag w
    = (Ok imageId, w') ->
    FileImageRepository.exists_ imageId w' = (Ok true, w').
Proof.
  intros fuel imageUrl userPrompt sizeTag qualityTag w w' imageId Hsave.
  apply save_ok_effect in Hsave. destruct Hsave as [_ [Himg _]].
  unfold FileImageRepository.exists_, existsSync.
  destruct (lookup_file (FileImageRepository.getImagePath imageId) w');
    [reflexivity|contradiction].
Qed.

Hypothesis laws : RuntimeLaws RT.

(** The record [findById] reads from a file that [save] wrote. *)
Lemma findById_record_file (imageId i p : js_string) (t : Z)
    (s q : option js_string) (w : World) :
  lookup_file (FileImageRepository.getMetadataPath imageId) w
  = Some (utf8_encode
            (JSON_stringify (record_object i p (toISOString_of t) s q))) ->
  time_in_range t ->
  FileImageRepository.findById imageId w
  = (Ok (Some (mkImageMetadata (VStr i) (VStr p) (ValidDate t)
                 (option_map JStr s) (option_map JStr q))), w).
Proof.
  intros Hl Hrange.
  unfold FileImageRepository.findById, bind, existsSync, try_catch.
  rewrite Hl. cbn [is_some negb].
  unfold FileImageRepository.read_record, bind, readFileSync, lift.
  rewrite Hl. unfold parse_json.
  rewrite record_roundtrip, fromJSON_record_object.
  rewrite date_roundtrip by exact Hrange.
  reflexivity.
Qed.

(** X2. After a successful [save], GET /:id on the returned id sends the
    image file of that id. *)
Theorem getById_after_save :
  forall (fuel fuel' : nat) (imageUrl userPrompt : js_string)
         (sizeTag qualityTag : option js_string) (w w' : World)
         (imageId : js_string),
    FileImageRepository.save fuel imageUrl userPrompt sizeTag qualityTag w
    = (Ok imageId, w') ->
    time_in_range (clock w') ->
    ImageController.getById (FileImageRepository.repository fuel') imageId w'
    = (Ok (SendFile (FileImageRepository.getImagePath imageId)), w').
Proof.
  intros fuel fuel' imageUrl userPrompt sizeTag qualityTag w w' imageId
    Hsave Hrange.
  apply save_ok_effect in Hsave. destruct Hsave as [_ [Himg Hmeta]].
  unfold ImageController.getById, ImageGenerationService.getImageById,
    try_catch, bind.
  simpl repo_findById.
  rewrite (@findById_record_file imageId _ _ _ _ _ _ Hmeta Hrange).
  simpl repo_exists. unfold FileImageRepository.exists_, existsSync.
  destruct (lookup_file (FileImageRepository.getImagePath imageId) w');
    [reflexivity|contradiction].
Qed.

(** X3. After a successful [save] of a prompt, GET /:id/download on the
    returned id sends the image file as an attachment named [artwork-], the
    sanitized prompt, a dash, the id and [.png]. *)
Theorem download_after_save :
  forall (fuel fuel' : nat) (imageUrl userPrompt : js_string)
         (sizeTag qualityTag : option js_string) (w w' : World)
         (imageId : js_string),
    FileImageRepository.save fuel imageUrl userPrompt sizeTag qualityTag w
    = (Ok imageId, w') ->
    time_in_range (clock w') ->
    ImageController.download (FileImageRepository.repository fuel') imageId w'
    = (Ok (DownloadFile (FileImageRepository.getImagePath imageId)
             (lit "artwork-"
              +++ ImageGenerationService.sanitizePrompt userPrompt
              +++ lit "-" +++ imageId +++ lit ".png")), w').
Proof.
  intros fuel fuel' imageUrl userPrompt sizeTag qualityTag w w' imageId
    Hsave Hrange.
  apply save_ok_effect in Hsave. destruct Hsave as [_ [Himg Hmeta]].
  unfold ImageController.download, ImageGenerationService.getImageById,
    ImageGenerationService.getDownloadFilename, try_catch, bind.
  simpl repo_findById.
  rewrite (@findById_record_file imageId _ _ _ _ _ _ Hmeta Hrange).
  simpl repo_exists. unfold FileImageRepository.exists_, existsSync.
  destruct (lookup_file (FileImageRepository.getImagePath imageId) w');
    [|contradiction].
  cbn [is_some negb toJSON toISOString createdAt obind lift fst].
  unfold ret at 1. cbv beta iota.
  rewrite (@findById_record_file imageId _ _ _ _ _ _ Hmeta Hrange).
  reflexivity.
Qed.

End AfterSave.

Lemma exists_after_save_witness :
  FileImageRepository.exists_ (EV := Demo.env) (lit "abc123")
    (snd AfterSaveScenario.run)
  = (Ok true, snd AfterSaveScenario.run).
Proof.
  apply (@exists_after_save Demo.runtime Demo.env 5 Demo.cat_url
           (lit "Sunset, at sea!") None (Some ImageQuality.HD)
           Demo.world0 (snd AfterSaveScenario.run) (lit "abc123")).
  vm_compute. reflexivity.
Defined.

Lemma getById_after_save_witness :
  ImageController.getById (RT := Demo.runtime)
    (FileImageRepository.repository (RT := Demo.runtime) (EV := Demo.env) 0)
    (lit "abc123") (snd AfterSaveScenario.run)
  = (Ok (SendFile (FileImageRepository.getImagePath (EV := Demo.env)
                     (lit "abc123"))),
     snd AfterSaveScenario.run).
Proof.
  apply (@getById_after_save Demo.runtime Demo.env Demo_laws 5 0 Demo.cat_url
           (lit "Sunset, at sea!") None (Some ImageQuality.HD)
           Demo.world0 (snd AfterSaveScenario.run) (lit "abc123")).
  - vm_compute. reflexivity.
  - vm_compute. split; discriminate.
Defined.

Lemma download_after_save_witness :
  ImageController.download (RT := Demo.runtime)
    (FileImageRepository.repository (RT := Demo.runtime) (EV := Demo.env) 0)
    (lit "abc123") (snd AfterSaveScenario.run)
  = (Ok (DownloadFile
           (FileImageRepository.getImagePath (EV := Demo.env) (lit "abc123"))
           (lit "artwork-sunset--at-sea--abc123.png")),
     snd AfterSaveScenario.run).
Proof.
  apply (@download_after_save Demo.runtime Demo.env Demo_laws 5 0 Demo.cat_url
           (lit "Sunset, at sea!") None (Some ImageQuality.HD)
           Demo.world0 (snd AfterSaveScenario.run) (lit "abc123")).
  - vm_compute. reflexivity.
  - vm_compute. split; discriminate.
Defined.

(* ================================================================== *)
(** * Record files and their contents *)
(* ================================================================== *)

Section RecordFiles.
Context {RT : Runtime} {EV : Env}.

(** X4. What [findById] makes of an existing record file, for an
    identifier without a path separator.  Text that is not JSON, and the
    JSON text [null], give no record.  Every other JSON value gives a
    record: an object gives the record of its five properties, the missing
    ones [undefined], and its date is invalid when [createdAt] is missing;
    a number, a string, a boolean or an array gives a record all of whose
    fields are [undefined], with an invalid date.  [new Date(undefined)]
    is the Invalid Date in every runtime; this is the one fact about the
    runtime the statement takes as a hypothesis. *)
Theorem findById_by_file_content :
  forall (imageId : js_string) (w : World) (bytes : list N),
    separator_free imageId = true ->
    newDate None = InvalidDate ->
    lookup_file (FileImageRepository.getMetadataPath imageId) w = Some bytes ->
    let found := FileImageRepository.findById imageId w in
    let parsed := JSON_parse (utf8_decode bytes) in
    (parsed = None -> found = (Ok None, w))
    /\ (parsed = Some JNull -> found = (Ok None, w))
    /\ (forall props, parsed = Some (JObj props) ->
          found
          = (Ok (Some (mkImageMetadata
                         (assoc (lit "id") props)
                         (assoc (lit "prompt") props)
                         (newDate (assoc (lit "createdAt") props))
                         (assoc (lit "size") props)
                         (assoc (lit "quality") props))), w))
    /\ (forall props, parsed = Some (JObj props) ->
          assoc (lit "createdAt") props = None ->
          exists m, found = (Ok (Some m), w) /\ createdAt m = InvalidDate)
    /\ (forall j, parsed = Some j -> j <> JNull ->
          (forall props, j <> JObj props) ->
          found
          = (Ok (Some (mkImageMetadata None None InvalidDate None None)),
             w)).
Proof.
  intros imageId w bytes _ Hundefined Hl. cbv zeta.
  unfold FileImageRepository.findById, bind, existsSync, try_catch.
  rewrite Hl. cbn [is_some negb].
  unfold FileImageRepository.read_record, bind, readFileSync, lift,
    parse_json.
  rewrite Hl.
  split; [|split; [|split; [|split]]].
  - intros ->. reflexivity.
  - intros ->. reflexivity.
  - intros props ->. reflexivity.
  - intros props -> Hmissing. eexists. split; [reflexivity|].
    cbn [createdAt]. rewrite Hmissing. exact Hundefined.
  - intros j -> Hnull Hobj.
    destruct j; try (simpl; rewrite Hundefined; reflexivity);
      [contradiction|].
    exfalso. exact (Hobj _ eq_refl).
Qed.

(** X8. A record whose date is invalid cannot be served: with its image
    file in place, GET /:id answers 500 "Failed to serve image" and
    GET /:id/download answers 500 "Failed to download image". *)
Theorem invalid_date_record_is_not_served :
  forall (fuel : nat) (imageId : js_string) (w : World) (m : ImageMetadata),
    FileImageRepository.findById imageId w = (Ok (Some m), w) ->
    createdAt m = InvalidDate ->
    lookup_file (FileImageRepository.getImagePath imageId) w <> None ->
    ImageController.getById (FileImageRepository.repository fuel) imageId w
    = (Ok (JsonReply 500 [(lit "error", JStr (lit "Failed to serve image"))]),
       w)
    /\ ImageController.download (FileImageRepository.repository fuel)
         imageId w
       = (Ok (JsonReply 500
                [(lit "error", JStr (lit "Failed to download image"))]), w).
Proof.
  intros fuel imageId w m Hfind Hdate Himg.
  unfold ImageController.getById, ImageController.download,
    ImageGenerationService.getImageById, try_catch, bind.
  simpl repo_findById. rewrite Hfind.
  simpl repo_exists. unfold FileImageRepository.exists_, existsSync.
  destruct (lookup_file (FileImageRepository.getImagePath imageId) w);
    [|contradiction].
  cbn [is_some negb]. unfold lift, toJSON, toISOString. rewrite Hdate.
  split; reflexivity.
Qed.

Hypothesis laws : RuntimeLaws RT.

(** X5. A record with a valid date in range survives serialisation: the
    object [toJSON] builds, once its [undefined] properties are dropped as
    [JSON.stringify] does, is turned back into the same record by
    [fromJSON]. *)
Theorem fromJSON_toJSON :
  forall (m : ImageMetadata) (t : Z),
    createdAt m = ValidDate t ->
    time_in_range t ->
    exists o : object_literal,
      toJSON m = Ok o /\ fromJSON (JObj (defined_props o)) = Ok m.
Proof.
  intros [i p c s q] t Hc Hrange. simpl in Hc. subst c.
  eexists. split; [reflexivity|].
  pose proof (date_roundtrip Hrange) as Hd. unfold VStr in Hd.
  destruct i, p, s, q; unfold fromJSON, get_prop; simpl;
    rewrite Hd; reflexivity.
Qed.

End RecordFiles.

Lemma findById_by_file_content_witness :
  FileImageRepository.findById (RT := Demo.runtime) (EV := Demo.env)
    (lit "broken") RecordFileScenario.world
  = (Ok None, RecordFileScenario.world)
  /\ exists m,
      FileImageRepository.findById (RT := Demo.runtime) (EV := Demo.env)
        (lit "nodate") RecordFileScenario.world
      = (Ok (Some m), RecordFileScenario.world)
      /\ createdAt m = InvalidDate.
Proof.
  split.
  - pose proof (@findById_by_file_content Demo.runtime Demo.env
                  (lit "broken") RecordFileScenario.world [7; 7; 7]%N
                  eq_refl eq_refl eq_refl) as H.
    cbv zeta in H. destruct H as [H _]. apply H. reflexivity.
  - pose proof (@findById_by_file_content Demo.runtime Demo.env
                  (lit "nodate") RecordFileScenario.world
                  RecordFileScenario.nodate_bytes
                  eq_refl eq_refl eq_refl) as H.
    cbv zeta in H. destruct H as [_ [_ [_ [H _]]]].
    apply (H [ (lit "id", JStr (lit "nodate"));
               (lit "prompt", JStr (lit "a dog")) ]);
      vm_compute; reflexivity.
Defined.

Lemma invalid_date_record_is_not_served_witness :
  ImageController.getById (RT := Demo.runtime)
    (FileImageRepository.repository (RT := Demo.runtime) (EV := Demo.env) 0)
    (lit "nodate") RecordFileScenario.world
  = (Ok (JsonReply 500 [(lit "error", JStr (lit "Failed to serve image"))]),
     RecordFileScenario.world).
Proof.
  apply (@invalid_date_record_is_not_served Demo.runtime Demo.env 0
           (lit "nodate") RecordFileScenario.world RecordFileScenario.nodate).
  - vm_compute. reflexivity.
  - reflexivity.
  - vm_compute. discriminate.
Defined.

Lemma fromJSON_toJSON_witness :
  exists o : object_literal,
    toJSON (RT := Demo.runtime) RecordFileScenario.dated = Ok o
    /\ fromJSON (RT := Demo.runtime) (JObj (defined_props o))
       = Ok RecordFileScenario.dated.
Proof.
  apply (@fromJSON_toJSON Demo.runtime Demo_laws RecordFileScenario.dated
           1040%Z).
  - reflexivity.
  - vm_compute. split; discriminate.
Defined.

(* ================================================================== *)
(** * The gallery *)
(* ================================================================== *)

Section Gallery.
Context {RT : Runtime} {EV : Env}.

(** [getAllImages] serialises every record that [findAll] returns, and
    fails on the first one whose date is invalid. *)
Lemma getAllImages_spec (repo : IImageRepository)
    (images : list ImageMetadata) (w w1 : World) :
  repo_findAll repo w = (Ok images, w1) ->
  (Forall has_valid_date images ->
   exists objs,
     ImageGenerationService.getAllImages repo w = (Ok objs, w1)
     /\ Forall2 (fun m o => toJSON m = Ok o) images objs)
  /\ (Exists (fun m => createdAt m = InvalidDate) images ->
      ImageGenerationService.getAllImages repo w
      = (Throw RangeError_invalid_time, w1)).
Proof.
  intros Hfind.
  unfold ImageGenerationService.getAllImages.
  match goal with
  | |- context [bind (repo_findAll repo) ?f] => set (F := f)
  end.
  assert (bind (repo_findAll repo) F w = F images w1) as ->
    by (unfold bind; rewrite Hfind; reflexivity).
  clear Hfind.
  assert (forall m l,
             F (m :: l) w1
             = match toJSON m with
               | Ok o =>
                   match F l w1 with
                   | (Ok os, w2) => (Ok (o :: os), w2)
                   | (Throw e, w2) => (Throw e, w2)
                   | (Pending, w2) => (Pending, w2)
                   end
               | Throw e => (Throw e, w1)
               | Pending => (Pending, w1)
               end) as Hstep.
  { intros m l. unfold F. unfold bind, lift.
    destruct (toJSON m); reflexivity. }
  induction images as [|m images [IHok IHbad]].
  - split.
    + intros _. exists []. split; [reflexivity|constructor].
    + intros H. inversion H.
  - rewrite Hstep. split.
    + intros Hall. apply Forall_cons_iff in Hall.
      destruct Hall as [Hm Hrest].
      destruct (IHok Hrest) as [objs [Hrun Hobjs]].
      unfold has_valid_date in Hm.
      assert (exists o, toJSON m = Ok o) as [o Ho].
      { unfold toJSON, toISOString.
        destruct (createdAt m); [eexists; reflexivity|contradiction]. }
      exists (o :: objs). rewrite Ho, Hrun.
      split; [reflexivity|now constructor].
    + intros Hex.
      apply Exists_cons in Hex. destruct Hex as [Hm|Hrest].
      * unfold toJSON, toISOString. rewrite Hm. reflexivity.
      * rewrite (IHbad Hrest).
        unfold toJSON, toISOString.
        destruct (createdAt m); reflexivity.
Qed.



(** X7. One record file that parses to a record with an invalid date
    (a missing or unreadable [createdAt]) makes the whole listing fail:
    GET / answers 500 "Failed to list images". *)
Theorem listAll_invalid_date_500 :
  forall (fuel : nat) (w : World),
    Exists (fun m => createdAt m = InvalidDate) (parsable_records w) ->
    ImageController.listAll (FileImageRepository.repository fuel) w
    = (Ok (JsonReply 500 [(lit "error", JStr (lit "Failed to list images"))]),
       w).
Proof.
  intros fuel w Hex.
  set (records := Array_sort byCreatedAtDesc (parsable_records w)).
  pose proof (Array_sort_perm byCreatedAtDesc (parsable_records w)) as HP.
  assert (Exists (fun m => createdAt m = InvalidDate) records) as Hex'.
  { apply Exists_exists in Hex. destruct Hex as [m [Hin Hm]].
    apply Exists_exists. exists m. split; [|exact Hm].
    eapply Permutation_in; [apply Permutation_sym; exact HP|exact Hin]. }
  destruct (@getAllImages_spec (FileImageRepository.repository fuel)
              records w w (findAll_spec w)) as [_ Hbad].
  unfold ImageController.listAll, try_catch, bind. rewrite (Hbad Hex').
  reflexivity.
Qed.

End Gallery.


Lemma listAll_invalid_date_500_witness :
  ImageController.listAll (RT := Demo.runtime)
    (FileImageRepository.repository (RT := Demo.runtime) (EV := Demo.env) 0)
    RecordFileScenario.world
  = (Ok (JsonReply 500 [(lit "error", JStr (lit "Failed to list images"))]),
     RecordFileScenario.world).
Proof.
  apply (@listAll_invalid_date_500 Demo.runtime Demo.env 0
           RecordFileScenario.world).
  assert (parsable_records (RT := Demo.runtime) (EV := Demo.env)
            RecordFileScenario.world
          = [RecordFileScenario.nodate]) as ->
    by (vm_compute; reflexivity).
  constructor. reflexivity.
Defined.

(* ================================================================== *)
(** * Outcomes of the Generate handler *)
(* ================================================================== *)

Section GenerateOutcomes.
Context {RT : Runtime} {EV : Env}.

(** The enhancement step returns a prompt whenever the completion call
    settles. *)
Lemma enhance_settles (p : js_string) (w : World) :
  chatModel_invoke (promptTemplate_format p) <> Pending ->
  exists enhanced, enhancePromptWithLangChain p w = (Ok enhanced, w).
Proof.
  intros Hset.
  unfold enhancePromptWithLangChain, try_catch, bind, lift.
  destruct (chatModel_invoke (promptTemplate_format p)) as [[s|]|e|];
    [rewrite accept_enhancement_text| | |contradiction];
    eexists; reflexivity.
Qed.

(** With the OpenAI provider, the strategy returns the URL that the images
    API gives for the enhanced prompt. *)
Lemma strategy_openai_ok (p enhanced s q url : js_string) (w : World) :
  provider = OPENAI ->
  enhancePromptWithLangChain p w = (Ok enhanced, w) ->
  openai_images_generate enhanced s q = Ok (Some url) ->
  url <> [] ->
  strategy_generate createStrategy p s q w = (Ok url, w).
Proof.
  intros Hprov Henh Hapi Hurl.
  unfold createStrategy, strategy_generate, LangChain_generate, try_catch.
  unfold bind at 1. rewrite Henh.
  unfold createClient. rewrite Hprov. simpl client_generateImage.
  unfold OpenAIImageGenerationClient_generateImage, try_catch, bind, lift.
  rewrite Hapi. destruct url; [contradiction|reflexivity].
Qed.

(** X9. With the provider set to Gemini, image generation cannot succeed:
    every POST /generate with a usable prompt, once the completion call has
    settled, is answered with 500 and the message of the client that is not
    implemented, and nothing is written. *)
Theorem gemini_provider_generate_500 :
  forall (fuel : nat) (body : generate_body) (p : js_string) (w : World),
    provider = GEMINI ->
    ImageController.accepted_prompt (body_prompt body) = Some p ->
    blank p = false ->
    chatModel_invoke (promptTemplate_format p) <> Pending ->
    ImageController.generate createStrategy
      (FileImageRepository.repository fuel) body w
    = (Ok (JsonReply 500
             [ (lit "error", JStr (lit "Failed to generate image"));
               (lit "message",
                JStr (lit "Failed to generate image: Failed to generate image: Not implemented")) ]),
       w).
Proof.
  intros fuel body p w Hprov Hprompt Hblank Hset.
  destruct (enhance_settles p w Hset) as [enhanced Henh].
  unfold ImageController.generate, try_catch. unfold bind at 1.
  rewrite Hprompt. unfold lift, newImageGenerationRequest.
  rewrite validate_rejects_iff, Hblank. unfold bind at 1.
  unfold ImageGenerationService.generateImage, try_catch. unfold bind at 1.
  cbn [req_prompt req_size req_quality].
  unfold createStrategy, strategy_generate, LangChain_generate, try_catch.
  unfold bind at 1. rewrite Henh.
  unfold createClient. rewrite Hprov. reflexivity.
Qed.

(** X10. With the OpenAI provider, POST /generate succeeds whenever the
    outside world plays along: if the enhancement step yields a prompt, the
    images API returns a non-empty URL for that enhanced prompt, the
    download of that URL resolves and the metadata write meets no fault,
    the handler answers 200 with the drawn id, its URL and the prompt as the
    user gave it, and the image then exists. *)
Theorem generate_succeeds_when_services_answer :
  forall (fuel : nat) (body : generate_body) (p enhanced url : js_string)
         (w w1 : World),
    let sizeTag :=
      match body_size body with Some s => s | None => lit "1024x1024" end in
    let qualityTag :=
      match body_quality body with Some q => q | None => lit "standard" end in
    let drawn := uuid_at (uuid_count w) in
    provider = OPENAI ->
    ImageController.accepted_prompt (body_prompt body) = Some p ->
    blank p = false ->
    enhancePromptWithLangChain p w = (Ok enhanced, w) ->
    openai_images_generate enhanced sizeTag qualityTag = Ok (Some url) ->
    url <> [] ->
    FileImageRepository.downloadImage fuel url
      (FileImageRepository.getImagePath drawn) (snd (uuidv4 w))
    = (Ok tt, w1) ->
    disk_fault_at (FileImageRepository.getMetadataPath drawn) (clock w1)
    = None ->
    exists w2 : World,
      ImageController.generate createStrategy
        (FileImageRepository.repository fuel) body w
      = (Ok (JsonReply 200
               [ (lit "success", JBool true);
                 (lit "imageId", JStr drawn);
                 (lit "imageUrl", JStr (lit "/api/images/" +++ drawn));
                 (lit "prompt", JStr p) ]), w2)
      /\ FileImageRepository.exists_ drawn w2 = (Ok true, w2).
Proof.
  intros fuel body p enhanced url w w1 sizeTag qualityTag drawn
    Hprov Hprompt Hblank Henh Hapi Hurl Hdown Hfault.
  pose proof (@strategy_openai_ok p enhanced sizeTag qualityTag url w Hprov Henh
                Hapi Hurl)
    as Hstrategy.
  assert (exists w2,
             FileImageRepository.save fuel url p (Some sizeTag)
               (Some qualityTag) w = (Ok drawn, w2)) as [w2 Hsave].
  { rewrite save_unfold. cbv zeta. fold drawn. rewrite Hdown.
    pose proof Hdown as Heff. apply downloadImage_effect in Heff.
    destruct Heff as [_ [_ [_ [_ [[_ [_ Himg]] | [Hne _]]]]]];
      [|congruence].
    unfold writeFileSync, write_file.
    assert (dir (FileImageRepository.getMetadataPath drawn)
            = dir (FileImageRepository.getImagePath drawn)) as Hdir
      by reflexivity.
    rewrite Hdir. unfold lookup_file in Himg.
    destruct (assoc (dir (FileImageRepository.getImagePath drawn)) (fs w1))
      as [entries|]; [|congruence].
    rewrite Hfault. eexists. reflexivity. }
  exists w2. split.
  - unfold ImageController.generate, try_catch. unfold bind at 1.
    rewrite Hprompt. unfold lift, newImageGenerationRequest.
    rewrite validate_rejects_iff, Hblank. fold sizeTag qualityTag.
    unfold bind at 1.
    unfold ImageGenerationService.generateImage, try_catch. unfold bind at 1.
    cbn [req_prompt req_size req_quality]. rewrite Hstrategy.
    destruct url as [|c url]; [contradiction|].
    cbn [truthy negb]. unfold bind at 1. unfold ret at 1.
    unfold bind at 1. simpl repo_save. rewrite Hsave. reflexivity.
  - eapply exists_after_save_fact. exact Hsave.
Qed.

(** X11. With the OpenAI provider, a failed download fails the request:
    when the images API has returned a URL and the download of that URL
    fails, the handler answers 500 with the download's message after the
    prefix "Failed to generate image: ", and no metadata file is written
    for the drawn id. *)
Theorem generate_download_failure_500 :
  forall (fuel : nat) (body : generate_body) (p enhanced url : js_string)
         (w w1 : World) (e : exn),
    let sizeTag :=
      match body_size body with Some s => s | None => lit "1024x1024" end in
    let qualityTag :=
      match body_quality body with Some q => q | None => lit "standard" end in
    let drawn := uuid_at (uuid_count w) in
    provider = OPENAI ->
    ImageController.accepted_prompt (body_prompt body) = Some p ->
    blank p = false ->
    enhancePromptWithLangChain p w = (Ok enhanced, w) ->
    openai_images_generate enhanced sizeTag qualityTag = Ok (Some url) ->
    url <> [] ->
    FileImageRepository.downloadImage fuel url
      (FileImageRepository.getImagePath drawn) (snd (uuidv4 w))
    = (Throw e, w1) ->
    ImageController.generate createStrategy
      (FileImageRepository.repository fuel) body w
    = (Ok (JsonReply 500
             [ (lit "error", JStr (lit "Failed to generate image"));
               (lit "message",
                JStr (lit "Failed to generate image: " +++ message e)) ]),
       w1)
    /\ lookup_file (FileImageRepository.getMetadataPath drawn) w1
       = lookup_file (FileImageRepository.getMetadataPath drawn) w.
Proof.
  intros fuel body p enhanced url w w1 e sizeTag qualityTag drawn
    Hprov Hprompt Hblank Henh Hapi Hurl Hdown.
  pose proof (@strategy_openai_ok p enhanced sizeTag qualityTag url w Hprov Henh
                Hapi Hurl)
    as Hstrategy.
  assert (FileImageRepository.save fuel url p (Some sizeTag)
            (Some qualityTag) w = (Throw e, w1)) as Hsave.
  { rewrite save_unfold. cbv zeta. fold drawn. rewrite Hdown. reflexivity. }
  split.
  - unfold ImageController.generate, try_catch. unfold bind at 1.
    rewrite Hprompt. unfold lift, newImageGenerationRequest.
    rewrite validate_rejects_iff, Hblank. fold sizeTag qualityTag.
    unfold bind at 1.
    unfold ImageGenerationService.generateImage, try_catch. unfold bind at 1.
    cbn [req_prompt req_size req_quality]. rewrite Hstrategy.
    destruct url as [|c url]; [contradiction|].
    cbn [truthy negb]. unfold bind at 1. unfold ret at 1.
    unfold bind at 1. simpl repo_save. rewrite Hsave. reflexivity.
  - apply downloadImage_effect in Hdown.
    destruct Hdown as [_ [_ [Hother _]]].
    rewrite Hother; [reflexivity|].
    apply image_path_not_metadata_path.
Qed.

End GenerateOutcomes.

Lemma gemini_provider_generate_500_witness :
  ImageController.generate (createStrategy (EV := GeminiScenario.env))
    (FileImageRepository.repository (RT := Demo.runtime)
       (EV := GeminiScenario.env) 5)
    (mkBody (VStr (lit "a cat")) None None) Demo.world0
  = (Ok (JsonReply 500
           [ (lit "error", JStr (lit "Failed to generate image"));
             (lit "message",
              JStr (lit "Failed to generate image: Failed to generate image: Not implemented")) ]),
     Demo.world0).
Proof.
  apply (@gemini_provider_generate_500 Demo.runtime GeminiScenario.env 5
           (mkBody (VStr (lit "a cat")) None None) (lit "a cat") Demo.world0).
  - reflexivity.
  - reflexivity.
  - reflexivity.
  - vm_compute. discriminate.
Defined.

Lemma generate_succeeds_when_services_answer_witness :
  exists w2 : World,
    ImageController.generate (createStrategy (EV := Demo.env))
      (FileImageRepository.repository (RT := Demo.runtime) (EV := Demo.env) 5)
      (mkBody (VStr (lit "a cat")) (Some ImageSize.PORTRAIT) None)
      Demo.world0
    = (Ok (JsonReply 200
             [ (lit "success", JBool true);
               (lit "imageId", JStr (lit "abc123"));
               (lit "imageUrl", JStr (lit "/api/images/" +++ lit "abc123"));
               (lit "prompt", JStr (lit "a cat")) ]), w2)
    /\ FileImageRepository.exists_ (EV := Demo.env) (lit "abc123") w2
       = (Ok true, w2).
Proof.
  apply (@generate_succeeds_when_services_answer Demo.runtime Demo.env 5
           (mkBody (VStr (lit "a cat")) (Some ImageSize.PORTRAIT) None)
           (lit "a cat")
           (lit "a cat, painted in watercolor, soft lighting")
           Demo.cat_url Demo.world0
           (snd (FileImageRepository.downloadImage (EV := Demo.env) 5
                   Demo.cat_url
                   (FileImageRepository.getImagePath (EV := Demo.env)
                      (lit "abc123"))
                   (snd (uuidv4 (EV := Demo.env) Demo.world0))))).
  - reflexivity.
  - reflexivity.
  - reflexivity.
  - vm_compute. reflexivity.
  - reflexivity.
  - vm_compute. discriminate.
  - vm_compute. reflexivity.
  - reflexivity.
Defined.

Lemma generate_download_failure_500_witness :
  ImageController.generate (createStrategy (EV := FailedDownloadScenario.env))
    (FileImageRepository.repository (RT := Demo.runtime)
       (EV := FailedDownloadScenario.env) 5)
    (mkBody (VStr (lit "a cat")) None None) Demo.world0
  = (Ok (JsonReply 500
           [ (lit "error", JStr (lit "Failed to generate image"));
             (lit "message",
              JStr (lit "Failed to generate image: "
                    +++ lit "Failed to download image: 404")) ]),
     advance 15 (snd (uuidv4 (EV := FailedDownloadScenario.env) Demo.world0))).
Proof.
  apply (@generate_download_failure_500 Demo.runtime
           FailedDownloadScenario.env 5
           (mkBody (VStr (lit "a cat")) None None) (lit "a cat") (lit "a cat")
           Demo.cat_url Demo.world0
           (advance 15
              (snd (uuidv4 (EV := FailedDownloadScenario.env) Demo.world0)))
           (Error (lit "Failed to download image: 404"))).
  - reflexivity.
  - reflexivity.
  - reflexivity.
  - vm_compute. reflexivity.
  - reflexivity.
  - vm_compute. discriminate.
  - vm_compute. reflexivity.
Defined.

Section ImagesApiFailure.
Context {RT : Runtime} {EV : Env}.

(** X17. With the OpenAI provider, a request that the images API does not
    serve is answered with 500, and the reason reaches the user behind
    three copies of the prefix "Failed to generate image: ", one from the
    client, one from the strategy and one from the service.  The reason is
    the API's own message when the call is rejected, and "No image URL
    returned from OpenAI" when the call returns no URL or an empty one.
    No identifier is drawn and nothing is written. *)
Theorem images_api_failure_500 :
  forall (fuel : nat) (body : generate_body) (p enhanced reason : js_string)
         (w : World),
    let sizeTag :=
      match body_size body with Some s => s | None => lit "1024x1024" end in
    let qualityTag :=
      match body_quality body with Some q => q | None => lit "standard" end in
    let answer := openai_images_generate enhanced sizeTag qualityTag in
    provider = OPENAI ->
    ImageController.accepted_prompt (body_prompt body) = Some p ->
    blank p = false ->
    enhancePromptWithLangChain p w = (Ok enhanced, w) ->
    answer = Throw (Error reason)
    \/ ((answer = Ok None \/ answer = Ok (Some []))
        /\ reason = lit "No image URL returned from OpenAI") ->
    ImageController.generate createStrategy
      (FileImageRepository.repository fuel) body w
    = (Ok (JsonReply 500
             [ (lit "error", JStr (lit "Failed to generate image"));
               (lit "message",
                JStr (lit "Failed to generate image: "
                      +++ lit "Failed to generate image: "
                      +++ lit "Failed to generate image: "
                      +++ reason)) ]),
       w).
Proof.
  intros fuel body p enhanced reason w sizeTag qualityTag answer
    Hprov Hprompt Hblank Henh Hanswer.
  assert (strategy_generate createStrategy p sizeTag qualityTag w
          = (Throw (Error (lit "Failed to generate image: "
                           +++ lit "Failed to generate image: "
                           +++ reason)), w)) as Hstrategy.
  { unfold createStrategy, strategy_generate, LangChain_generate, try_catch.
    unfold bind at 1. rewrite Henh.
    unfold createClient. rewrite Hprov. simpl client_generateImage.
    unfold OpenAIImageGenerationClient_generateImage, try_catch, bind, lift.
    fold answer.
    destruct Hanswer as [-> | [[-> | ->] ->]]; reflexivity. }
  unfold ImageController.generate, try_catch. unfold bind at 1.
  rewrite Hprompt. unfold lift, newImageGenerationRequest.
  rewrite validate_rejects_iff, Hblank. fold sizeTag qualityTag.
  unfold bind at 1.
  unfold ImageGenerationService.generateImage, try_catch. unfold bind at 1.
  cbn [req_prompt req_size req_quality]. rewrite Hstrategy. reflexivity.
Qed.

(** X18. The strategy that the factory builds returns a URL only under the
    OpenAI provider, and never an empty one; so the service's own check,
    "Image generation returned no URL", cannot fire behind it. *)
Theorem strategy_never_returns_empty_url :
  forall (p s q url : js_string) (w w' : World),
    strategy_generate createStrategy p s q w = (Ok url, w') ->
    url <> [] /\ provider = OPENAI /\ w' = w
    /\ exists enhanced,
        enhancePromptWithLangChain p w = (Ok enhanced, w)
        /\ openai_images_generate enhanced s q = Ok (Some url).
Proof.
  intros p s q url w w' H.
  unfold createStrategy, strategy_generate, LangChain_generate, try_catch
    in H.
  unfold bind at 1 in H.
  destruct (enhancePromptWithLangChain p w) as [[enhanced|e|] w1] eqn:Henh;
    [|discriminate H|discriminate H].
  assert (w1 = w) as ->.
  { revert Henh.
    unfold enhancePromptWithLangChain, try_catch, bind, lift.
    destruct (chatModel_invoke (promptTemplate_format p)) as [c|e|];
      [destruct (accept_enhancement p c) as [p'|e|]| |];
      simpl; intros Heq; inversion Heq; reflexivity. }
  unfold createClient in H.
  destruct provider eqn:Hprov; simpl client_generateImage in H.
  - unfold OpenAIImageGenerationClient_generateImage, try_catch, bind, lift
      in H.
    destruct (openai_images_generate enhanced s q) as [[u|]|e|] eqn:Hapi;
      try discriminate H.
    destruct u as [|c u]; [discriminate H|].
    simpl in H. injection H as <- <-.
    split; [discriminate|]. split; [reflexivity|]. split; [reflexivity|].
    exists enhanced. split; [reflexivity|exact Hapi].
  - discriminate H.
Qed.

End ImagesApiFailure.

Lemma images_api_failure_500_witness :
  ImageController.generate (createStrategy (EV := ApiFailureScenario.env))
    (FileImageRepository.repository (RT := Demo.runtime)
       (EV := ApiFailureScenario.env) 5)
    (mkBody (VStr (lit "a cat")) None None) Demo.world0
  = (Ok (JsonReply 500
           [ (lit "error", JStr (lit "Failed to generate image"));
             (lit "message",
              JStr (lit "Failed to generate image: Failed to generate image: Failed to generate image: Billing hard limit has been reached")) ]),
     Demo.world0).
Proof.
  apply (@images_api_failure_500 Demo.runtime ApiFailureScenario.env 5
           (mkBody (VStr (lit "a cat")) None None) (lit "a cat") (lit "a cat")
           (lit "Billing hard limit has been reached") Demo.world0).
  - reflexivity.
  - reflexivity.
  - reflexivity.
  - vm_compute. reflexivity.
  - left. reflexivity.
Defined.

Lemma strategy_never_returns_empty_url_witness :
  strategy_generate (createStrategy (EV := Demo.env)) (lit "a cat")
    (lit "1024x1024") (lit "standard") Demo.world0
  = (Ok Demo.cat_url, Demo.world0)
  /\ List.length Demo.cat_url > 0
  /\ provider (Env := Demo.env) = OPENAI.
Proof.
  assert (strategy_generate (createStrategy (EV := Demo.env)) (lit "a cat")
            (lit "1024x1024") (lit "standard") Demo.world0
          = (Ok Demo.cat_url, Demo.world0)) as Hrun
    by (vm_compute; reflexivity).
  destruct (@strategy_never_returns_empty_url Demo.env _ _ _ _ _ _ Hrun)
    as (Hurl & Hprov & _).
  split; [exact Hrun|]. split; [|exact Hprov].
  destruct Demo.cat_url; [contradiction|simpl; lia].
Defined.

(* ================================================================== *)
(** * The repository constructor and the reading handlers *)
(* ================================================================== *)

Section ReadOnly.
Context {RT : Runtime} {EV : Env}.


Lemma valid_or_invalid_dates (l : list ImageMetadata) :
  Forall has_valid_date l \/ Exists (fun m => createdAt m = InvalidDate) l.
Proof.
  induction l as [|m l [IH|IH]].
  - left. constructor.
  - destruct (createdAt m) eqn:D.
    + left. constructor; [|exact IH]. unfold has_valid_date.
      rewrite D. discriminate.
    + right. now apply Exists_cons_hd.
  - right. now apply Exists_cons_tl.
Qed.

Lemma not_found_or_answers (failure : js_string) (e : exn) (w : World) :
  exists r, ImageController.not_found_or failure e w = (Ok r, w).
Proof.
  unfold ImageController.not_found_or.
  destruct (_ || _); eexists; reflexivity.
Qed.

Lemma getImageById_world (fuel : nat) (imageId : js_string) (w : World) :
  (exists r, ImageGenerationService.getImageById
               (FileImageRepository.repository fuel) imageId w = (Ok r, w))
  \/ (exists e, ImageGenerationService.getImageById
                  (FileImageRepository.repository fuel) imageId w
                = (Throw e, w)).
Proof.
  unfold ImageGenerationService.getImageById, bind.
  simpl repo_findById.
  destruct (findById_world imageId w) as [[m|] ->].
  - simpl repo_exists.
    unfold FileImageRepository.exists_, existsSync.
    destruct (is_some _); cbn [negb].
    + unfold lift, toJSON, toISOString.
      destruct (createdAt m); [left|right]; eexists; reflexivity.
    + right. eexists. reflexivity.
  - right. eexists. reflexivity.
Qed.

Lemma getDownloadFilename_world (fuel : nat) (imageId : js_string)
    (w : World) :
  (exists r, ImageGenerationService.getDownloadFilename
               (FileImageRepository.repository fuel) imageId w = (Ok r, w))
  \/ (exists e, ImageGenerationService.getDownloadFilename
                  (FileImageRepository.repository fuel) imageId w
                = (Throw e, w)).
Proof.
  unfold ImageGenerationService.getDownloadFilename, bind.
  simpl repo_findById.
  destruct (findById_world imageId w) as [[m|] ->].
  - destruct (prompt m) as [[| | |p| |]|];
      try (right; eexists; reflexivity).
    left. eexists. reflexivity.
  - left. eexists. reflexivity.
Qed.

(** X20. The three reading handlers always answer and never write: GET
    /:id, GET /:id/download and GET / each end with a reply, whatever the
    store holds, and leave the files, the clock and the identifiers as
    they were. *)
Theorem reading_handlers_always_answer :
  forall (fuel : nat) (imageId : js_string) (w : World),
    (exists r,
        ImageController.getById (FileImageRepository.repository fuel)
          imageId w = (Ok r, w))
    /\ (exists r,
           ImageController.download (FileImageRepository.repository fuel)
             imageId w = (Ok r, w))
    /\ (exists r,
           ImageController.listAll (FileImageRepository.repository fuel) w
           = (Ok r, w)).
Proof.
  intros fuel imageId w. split; [|split].
  - unfold ImageController.getById, try_catch, bind.
    destruct (getImageById_world fuel imageId w) as [[r ->] | [e ->]].
    + eexists. reflexivity.
    + apply not_found_or_answers.
  - unfold ImageController.download, try_catch. unfold bind at 1.
    destruct (getImageById_world fuel imageId w) as [[r ->] | [e ->]].
    + unfold bind.
      destruct (getDownloadFilename_world fuel imageId w)
        as [[name ->] | [e ->]].
      * eexists. reflexivity.
      * apply not_found_or_answers.
    + apply not_found_or_answers.
  - unfold ImageController.listAll, try_catch, bind.
    destruct (@getAllImages_spec RT (FileImageRepository.repository fuel)
                _ w w (findAll_spec w)) as [Hok Hbad].
    destruct (valid_or_invalid_dates
                (Array_sort byCreatedAtDesc (parsable_records w)))
      as [Hall|Hex].
    + destruct (Hok Hall) as [objs [-> _]]. eexists. reflexivity.
    + rewrite (Hbad Hex). eexists. reflexivity.
Qed.

End ReadOnly.


Section OrphanedImage.
Context {RT : Runtime} {EV : Env}.

(** X21. [save] is not atomic.  When the download has resolved and the
    record file then cannot be opened for writing, [save] throws the
    write's error and the image file stays without a record: [exists]
    answers true for the drawn id, [findById] answers null, and GET /:id
    answers 404 "Image not found". *)
Theorem failed_record_write_orphans_image :
  forall (fuel fuel' : nat) (imageUrl userPrompt : js_string)
         (sizeTag qualityTag : option js_string) (w w1 : World) (e : exn),
    let drawn := uuid_at (uuid_count w) in
    FileImageRepository.downloadImage fuel imageUrl
      (FileImageRepository.getImagePath drawn) (snd (uuidv4 w))
    = (Ok tt, w1) ->
    disk_fault_at (FileImageRepository.getMetadataPath drawn) (clock w1)
    = Some (FailOpen e) ->
    lookup_file (FileImageRepository.getMetadataPath drawn) w = None ->
    FileImageRepository.save fuel imageUrl userPrompt sizeTag qualityTag w
    = (Throw e, w1)
    /\ FileImageRepository.exists_ drawn w1 = (Ok true, w1)
    /\ FileImageRepository.findById drawn w1 = (Ok None, w1)
    /\ ImageController.getById (FileImageRepository.repository fuel') drawn w1
       = (Ok (JsonReply 404 [(lit "error", JStr (lit "Image not found"))]),
          w1).
Proof.
  intros fuel fuel' imageUrl userPrompt sizeTag qualityTag w w1 e drawn
    Hdown Hfault Hfresh.
  pose proof (downloadImage_effect _ _ _ _ Hdown)
    as [_ [_ [Hother [_ [[_ [_ Himg]] | [Hne _]]]]]];
    [|congruence].
  assert (lookup_file (FileImageRepository.getMetadataPath drawn) w1 = None)
    as Hmeta.
  { rewrite Hother; [exact Hfresh|]. apply image_path_not_metadata_path. }
  assert (FileImageRepository.findById drawn w1 = (Ok None, w1)) as Hfind
    by (now apply findById_no_file).
  split; [|split; [|split]].
  - rewrite save_unfold. cbv zeta. fold drawn. rewrite Hdown.
    unfold writeFileSync, write_file.
    change (dir (FileImageRepository.getMetadataPath drawn))
      with (dir (FileImageRepository.getImagePath drawn)).
    unfold lookup_file in Himg.
    destruct (assoc (dir (FileImageRepository.getImagePath drawn)) (fs w1));
      [|contradiction].
    rewrite Hfault. reflexivity.
  - unfold FileImageRepository.exists_, existsSync.
    destruct (lookup_file (FileImageRepository.getImagePath drawn) w1);
      [reflexivity|contradiction].
  - exact Hfind.
  - unfold ImageController.getById, try_catch, bind,
      ImageGenerationService.getImageById, bind.
    simpl repo_findById. rewrite Hfind. reflexivity.
Qed.

End OrphanedImage.

Lemma failed_record_write_orphans_image_witness :
  exists w1 : World,
    FileImageRepository.save (RT := Demo.runtime) (EV := DiskFullScenario.env)
      5 Demo.cat_url (lit "a cat") None None Demo.world0
    = (Throw (Error (lit "ENOSPC: no space left on device")), w1)
    /\ FileImageRepository.exists_ (EV := DiskFullScenario.env)
         (lit "abc123") w1 = (Ok true, w1)
    /\ FileImageRepository.findById (RT := Demo.runtime)
         (EV := DiskFullScenario.env) (lit "abc123") w1 = (Ok None, w1)
    /\ ImageController.getById (RT := Demo.runtime)
         (FileImageRepository.repository (RT := Demo.runtime)
            (EV := DiskFullScenario.env) 5)
         (lit "abc123") w1
       = (Ok (JsonReply 404 [(lit "error", JStr (lit "Image not found"))]),
          w1).
Proof.
  eexists.
  apply (@failed_record_write_orphans_image Demo.runtime DiskFullScenario.env
           5 5 Demo.cat_url (lit "a cat") None None Demo.world0).
  - vm_compute. reflexivity.
  - reflexivity.
  - reflexivity.
Defined.

(* ================================================================== *)
(** * The download slug *)
(* ================================================================== *)

(** X12. Whatever the stored prompt, the slug of a download filename holds
    only lower-case ASCII letters, digits and dashes and is at most 50 units
    long; sanitizing a slug again leaves it as it is. *)
Theorem sanitizePrompt_charset_and_idempotent :
  forall p : js_string,
    let slug := ImageGenerationService.sanitizePrompt p in
    Forall (fun c => isLower c = true \/ isDigit c = true \/ c = dash) slug
    /\ List.length slug <= 50
    /\ ImageGenerationService.sanitizePrompt slug = slug.
Proof.
  intros p. cbv zeta.
  assert (Forall (fun c => isLower c = true \/ isDigit c = true \/ c = dash)
                 (ImageGenerationService.sanitizePrompt p)) as Hchars.
  { eapply Forall_impl; [|apply sanitized_ascii].
    intros c Hc. cbv beta in Hc.
    destruct (isLower c); [now left|].
    destruct (isDigit c); [right; now left|].
    simpl in Hc. apply N.eqb_eq in Hc. right. now right. }
  assert (List.length (ImageGenerationService.sanitizePrompt p) <= 50)
    as Hlen by (rewrite length_sanitizePrompt; lia).
  split; [exact Hchars|]. split; [exact Hlen|].
  unfold ImageGenerationService.sanitizePrompt at 1.
  unfold substring0. rewrite firstn_all2 by exact Hlen.
  unfold toLowerCase, replaceNonAlnum. rewrite map_map. clear Hlen.
  induction Hchars as [|c l Hc _ IH]; [reflexivity|].
  simpl. f_equal; [|exact IH].
  unfold isAlnum, lowerUnit.
  destruct Hc as [Hc | [Hc | ->]].
  - rewrite Hc. simpl.
    unfold isLower, isUpper in *.
    apply andb_true_iff in Hc. destruct Hc as [H1 H2].
    apply N.leb_le in H1.
    replace ((65 <=? c) && (c <=? 90))%N with false; [reflexivity|].
    symmetry. apply andb_false_iff. right. apply N.leb_gt. lia.
  - rewrite Hc, orb_true_r.
    unfold isDigit, isUpper in *.
    apply andb_true_iff in Hc. destruct Hc as [H1 H2].
    apply N.leb_le in H2.
    replace ((65 <=? c) && (c <=? 90))%N with false; [reflexivity|].
    symmetry. apply andb_false_iff. left. apply N.leb_gt. lia.
  - reflexivity.
Qed.

(* ================================================================== *)
(** * Configuration and start-up *)
(* ================================================================== *)

Section Startup.
Context {NP : NumberParsing}.

Lemma or_else_nonempty (a : option js_string) (b : js_string) :
  b <> [] -> or_else a b <> [].
Proof.
  intros Hb. unfold or_else.
  destruct a as [[|c s]|]; simpl; [exact Hb|discriminate|exact Hb].
Qed.

Lemma truthy_nonempty (s : js_string) : truthy s = true <-> s <> [].
Proof. destruct s; simpl; split; congruence. Qed.

(** An accepted configuration holds the key of its provider. *)
Lemma accepted_config_key (env : process_env) (config : AppConfig.t) :
  AppConfig.new env = Ok config ->
  match AppConfig.provider config with
  | OPENAI => AppConfig.openaiApiKey config <> []
  | GEMINI => AppConfig.geminiApiKey config <> []
  end.
Proof.
  unfold AppConfig.new, AppConfig.validate.
  cbn [AppConfig.provider AppConfig.openaiApiKey AppConfig.geminiApiKey].
  destruct (JsString.eqb _ (lit "gemini")).
  - destruct (or_else (getenv "GEMINI_API_KEY" env) []) as [|c k] eqn:K;
      intros H; [discriminate H|].
    injection H as <-. simpl. discriminate.
  - destruct (or_else (getenv "OPENAI_API_KEY" env) []) as [|c k] eqn:K;
      intros H; [discriminate H|].
    injection H as <-. simpl. discriminate.
Qed.

(** X13. The constructor either accepts the environment, and then the
    configuration holds a non-empty API key for the provider it selects, a
    non-empty storage path and a non-empty environment name; or it throws,
    and then its message names a key that is indeed unset or empty. *)
Theorem accepted_config_is_usable :
  forall env : process_env,
    (exists config,
        AppConfig.new env = Ok config
        /\ match AppConfig.provider config with
           | OPENAI => AppConfig.openaiApiKey config <> []
           | GEMINI => AppConfig.geminiApiKey config <> []
           end
        /\ AppConfig.storagePath config <> []
        /\ AppConfig.nodeEnv config <> [])
    \/ (AppConfig.new env
        = Throw (Error (lit "OPENAI_API_KEY is required when PROVIDER is set to "
                        +++ dquote +++ lit "openai" +++ dquote))
        /\ orU (getenv "OPENAI_API_KEY" env) None = None)
    \/ (AppConfig.new env
        = Throw (Error (lit "GEMINI_API_KEY is required when PROVIDER is set to "
                        +++ dquote +++ lit "gemini" +++ dquote))
        /\ orU (getenv "GEMINI_API_KEY" env) None = None).
Proof.
  intros env. unfold AppConfig.new, AppConfig.validate.
  cbn [AppConfig.provider AppConfig.openaiApiKey AppConfig.geminiApiKey].
  destruct (JsString.eqb _ (lit "gemini")).
  - unfold or_else at 2, orU.
    destruct (getenv "GEMINI_API_KEY" env) as [[|c k]|].
    + right. right. split; reflexivity.
    + left. eexists. split; [reflexivity|].
      cbn [AppConfig.provider AppConfig.geminiApiKey AppConfig.storagePath
             AppConfig.nodeEnv].
      split; [discriminate|].
      split; apply or_else_nonempty; vm_compute; discriminate.
    + right. right. split; reflexivity.
  - unfold or_else at 1, orU.
    destruct (getenv "OPENAI_API_KEY" env) as [[|c k]|].
    + right. left. split; reflexivity.
    + left. eexists. split; [reflexivity|].
      cbn [AppConfig.provider AppConfig.openaiApiKey AppConfig.storagePath
             AppConfig.nodeEnv].
      split; [discriminate|].
      split; apply or_else_nonempty; vm_compute; discriminate.
    + right. left. split; reflexivity.
Qed.

(** What [createClient()] gives for an accepted configuration. *)
Lemma createClient_configured (env : process_env) (config : AppConfig.t) :
  AppConfig.new env = Ok config ->
  ImageGenerationClientFactory.createClient config None
  = Ok match AppConfig.provider config with
       | OPENAI => OpenAIImageGenerationClient (AppConfig.openaiApiKey config)
       | GEMINI => GeminiImageGenerationClient (AppConfig.geminiApiKey config)
       end.
Proof.
  intros Hnew. pose proof (accepted_config_key _ Hnew) as Hkey.
  unfold ImageGenerationClientFactory.createClient,
    ImageGenerationClientFactory.imageProvider, AppConfig.getProvider,
    ImageGenerationClientFactory.newOpenAIImageGenerationClient,
    ImageGenerationClientFactory.newGeminiImageGenerationClient.
  destruct (AppConfig.provider config); simpl.
  - destruct (AppConfig.openaiApiKey config); [contradiction|reflexivity].
  - destruct (AppConfig.geminiApiKey config); [contradiction|reflexivity].
Qed.

(** X14. Start-up cannot fail once the configuration is accepted:
    [createStrategy] with a type that is "langchain" up to letter case
    builds the strategy, whose chat model and image client both belong to
    the configured provider and carry its non-empty API key; with any other
    type it throws "Unknown image generation strategy: " followed by the
    type as it was given, and leaves the environment alone. *)
Theorem createStrategy_after_accepted_config :
  forall (env : process_env) (config : AppConfig.t)
         (strategyType : js_string),
    AppConfig.new env = Ok config ->
    let result :=
      ImageGenerationServiceFactory.createStrategy config (Some strategyType)
        env in
    (toLowerCase strategyType = lit "langchain" ->
     exists strategy env',
       result = (Ok strategy, env')
       /\ chat_provider (chatModel strategy) = AppConfig.provider config
       /\ imageClient strategy
          = match AppConfig.provider config with
            | OPENAI =>
                OpenAIImageGenerationClient (AppConfig.openaiApiKey config)
            | GEMINI =>
                GeminiImageGenerationClient (AppConfig.geminiApiKey config)
            end
       /\ chat_apiKey (chatModel strategy) = client_apiKey (imageClient strategy)
       /\ client_apiKey (imageClient strategy) <> [])
    /\ (toLowerCase strategyType <> lit "langchain" ->
        result
        = (Throw (Error (lit "Unknown image generation strategy: "
                         +++ strategyType)), env)).
Proof.
  intros env config strategyType Hnew. cbv zeta.
  pose proof (accepted_config_key _ Hnew) as Hkey.
  pose proof (createClient_configured _ Hnew) as Hclient.
  unfold ImageGenerationServiceFactory.createStrategy.
  split.
  - intros ->. rewrite eqb_refl.
    unfold ImageGenerationServiceFactory.newLangChainImageGenerationStrategy.
    rewrite Hclient.
    unfold LLMFactory.createChatModel, AppConfig.getProvider,
      LLMFactory.createOpenAIModel, LLMFactory.createGeminiModel.
    destruct (AppConfig.provider config).
    + destruct (AppConfig.openaiApiKey config) as [|c k] eqn:K;
        [contradiction|].
      cbn [truthy negb]. eexists. eexists.
      split; [reflexivity|]. cbn. repeat split. discriminate.
    + destruct (AppConfig.geminiApiKey config) as [|c k] eqn:K;
        [contradiction|].
      cbn [truthy negb]. eexists. eexists.
      split; [reflexivity|]. cbn. repeat split. discriminate.
  - intros Hne. rewrite (eqb_neq Hne). reflexivity.
Qed.

(** X15. The chat model that [createGeminiModel] builds never runs on an
    image model: its model name is non-empty and does not contain "image"
    (a configured [GEMINI_MODEL] that does is replaced by "gemini-pro");
    building it sets [GOOGLE_API_KEY] to the Gemini key and changes no
    other variable. *)
Theorem createGeminiModel_uses_a_text_model :
  forall (config : AppConfig.t) (env env' : process_env)
         (model : chat_model),
    LLMFactory.createGeminiModel config env = (Ok model, env') ->
    includes (lit "image") (chat_modelName model) = false
    /\ chat_modelName model <> []
    /\ chat_apiKey model = AppConfig.geminiApiKey config
    /\ getenv "GOOGLE_API_KEY" env' = Some (AppConfig.geminiApiKey config)
    /\ (forall name : js_string,
          name <> lit "GOOGLE_API_KEY" -> assoc name env' = assoc name env).
Proof.
  intros config env env' model H.
  unfold LLMFactory.createGeminiModel in H.
  destruct (negb (truthy (AppConfig.geminiApiKey config)));
    [discriminate H|].
  injection H as <- <-.
  cbn [chat_modelName chat_apiKey].
  split; [|split; [|split; [reflexivity|split]]].
  - destruct (getenv "GEMINI_MODEL" _) as [m|]; [|reflexivity].
    destruct (truthy m); [|reflexivity].
    destruct (includes (lit "image") m) eqn:I; [reflexivity|exact I].
  - destruct (getenv "GEMINI_MODEL" _) as [m|]; [|discriminate].
    destruct m as [|c m]; [discriminate|].
    cbn [truthy andb].
    destruct (negb (includes (lit "image") (c :: m))); discriminate.
  - unfold getenv. apply assoc_set_entry_same.
  - intros name Hname. now apply assoc_set_entry_other.
Qed.

(** X16. [createClient] with an explicit provider name ignores the
    configured provider: it returns a client only for a name that is
    "openai" or "gemini" up to letter case, of the named class and with the
    key configured for that class, which must be non-empty; an empty name
    is treated as no name. *)
Theorem createClient_by_name :
  forall (config : AppConfig.t) (name : js_string),
    (name = [] ->
     ImageGenerationClientFactory.createClient config (Some name)
     = ImageGenerationClientFactory.createClient config None)
    /\ (forall client,
          name <> [] ->
          ImageGenerationClientFactory.createClient config (Some name)
          = Ok client ->
          (toLowerCase name = lit "openai"
           /\ client
              = OpenAIImageGenerationClient (AppConfig.openaiApiKey config)
           /\ AppConfig.openaiApiKey config <> [])
          \/ (toLowerCase name = lit "gemini"
              /\ client
                 = GeminiImageGenerationClient (AppConfig.geminiApiKey config)
              /\ AppConfig.geminiApiKey config <> []))
    /\ (name <> [] ->
        toLowerCase name <> lit "openai" ->
        toLowerCase name <> lit "gemini" ->
        exists e,
          ImageGenerationClientFactory.createClient config (Some name)
          = Throw e).
Proof.
  intros config name.
  unfold ImageGenerationClientFactory.createClient,
    ImageGenerationClientFactory.imageProvider.
  split; [|split].
  - intros ->. reflexivity.
  - intros client Hname.
    destruct name as [|c name]; [contradiction|]. cbn [truthy].
    unfold provider_name.
    destruct (JsString.eqb (toLowerCase (c :: name)) (lit "openai")) eqn:E1.
    + apply eqb_eq in E1.
      unfold ImageGenerationClientFactory.newOpenAIImageGenerationClient,
        or_else.
      destruct (AppConfig.openaiApiKey config) as [|k ks];
        cbn [truthy negb]; intros H; [discriminate H|].
      injection H as <-. left. repeat split; [exact E1|discriminate].
    + destruct (JsString.eqb (toLowerCase (c :: name)) (lit "gemini"))
        eqn:E2; [|discriminate].
      apply eqb_eq in E2.
      unfold ImageGenerationClientFactory.newGeminiImageGenerationClient,
        or_else.
      destruct (AppConfig.geminiApiKey config) as [|k ks];
        cbn [truthy negb]; intros H; [discriminate H|].
      injection H as <-. right. repeat split; [exact E2|discriminate].
  - intros Hname H1 H2.
    destruct name as [|c name]; [contradiction|]. cbn [truthy].
    unfold provider_name.
    rewrite (eqb_neq H1), (eqb_neq H2). eexists. reflexivity.
Qed.

End Startup.

Lemma createStrategy_after_accepted_config_witness :
  AppConfig.new (NP := ConfigScenario.numbers) ConfigScenario.gemini_env
  = Ok ConfigScenario.gemini_config
  /\ exists strategy env',
      ImageGenerationServiceFactory.createStrategy
        ConfigScenario.gemini_config (Some (lit "LangChain"))
        ConfigScenario.gemini_env
      = (Ok strategy, env')
      /\ chat_provider (chatModel strategy) = GEMINI
      /\ imageClient strategy = GeminiImageGenerationClient (lit "g-key")
      /\ chat_apiKey (chatModel strategy) = lit "g-key".
Proof.
  split; [reflexivity|].
  destruct (@createStrategy_after_accepted_config ConfigScenario.numbers
              ConfigScenario.gemini_env ConfigScenario.gemini_config
              (lit "LangChain") eq_refl) as [Hok _].
  destruct (Hok eq_refl) as (strategy & env' & Hrun & Hchat & Hclient & Hkey & _).
  exists strategy, env'.
  split; [exact Hrun|]. split; [exact Hchat|]. split; [exact Hclient|].
  rewrite Hkey, Hclient. reflexivity.
Defined.

Lemma createGeminiModel_uses_a_text_model_witness :
  exists model env',
    LLMFactory.createGeminiModel (NP := ConfigScenario.numbers)
      ConfigScenario.gemini_config ConfigScenario.gemini_env
    = (Ok model, env')
    /\ getenv "GEMINI_MODEL" ConfigScenario.gemini_env
       = Some (lit "gemini-2.0-flash-image")
    /\ chat_modelName model = lit "gemini-pro"
    /\ includes (lit "image") (chat_modelName model) = false
    /\ getenv "GOOGLE_API_KEY" env' = Some (lit "g-key").
Proof.
  eexists. eexists.
  split; [reflexivity|]. split; [reflexivity|]. split; [reflexivity|].
  destruct (@createGeminiModel_uses_a_text_model ConfigScenario.numbers
              ConfigScenario.gemini_config ConfigScenario.gemini_env
              _ _ eq_refl) as (Htext & _ & _ & Hkey & _).
  split; [exact Htext|exact Hkey].
Defined.

